(** * Portable Bookmarks: the versioned snapshot store and the change coalescer

    A shallow embedding of [GitManager] (git-manager.js), [BookmarkTracker]
    (background.js), and of [OptionsController] and [PopupController]
    (options.js) as far as they compute on data, with the properties of the
    commit store, the stat engine, the debounce state machine and the two
    pages proved over it.

    Conventions of the embedding.
    - [chrome.storage.local] is a record of optional slots; an absent key and
      an [undefined] value are the same [None].
    - Every [Date.now()] is an explicit argument of type [N] (milliseconds).
    - A function that can throw returns [option]; [None] is the exception.
    - [JSON.stringify], [Date.prototype.toISOString],
      [chrome.bookmarks.getTree] and the time that [getTree] takes belong
      to the platform and are the methods of the class [Platform].
    - Handlers run to completion between their [await]s.  The event loop
      is an agenda of callbacks with the times at which they become ready;
      [processBufferedChanges] is split at each of its suspension points:
      the [await] of [getTree], the two of [createCommit] ([Promise.all]
      of its four [get]s, and its [set]) and the two of
      [storeChangeHistory] (its [get] and its [set]).  Mutation events may
      arrive in between.
    - A call of [chrome.storage.local] takes a fixed time: a [get] reads
      and a [set] writes at the moment it resolves, and what a [set] writes
      is fixed when it is called.
    - [this.pendingChanges] is an array that [storeChangeHistory] receives
      by reference: the arrays have identities, and the array that the
      assignment [this.pendingChanges = []] replaces keeps its contents.
    - [chrome.storage.local] answers every call: rejected storage calls are
      outside the model.
    - The commit table and the branches are finite maps: the properties
      that every JavaScript object inherits ([constructor], [__proto__])
      are not keys.  Strings are sequences of 8-bit code units.
    - A boundary method of the tracker ([initialize], [createManualSnapshot]
      and the like) is a call that runs alone: no other handler runs while
      it awaits. *)

From Stdlib Require Import ZArith NArith String Ascii HexString DecimalString List Sorted Lia.
From stdpp Require Import base option list gmap strings.

Set Warnings "-register-all".

Local Open Scope string_scope.
Local Open Scope list_scope.
Local Open Scope N_scope.

(** ** JavaScript values *)

(** The bookmark tree is untyped JSON.  An object keeps the two properties
    the code reads, [url] and [children], apart from its other properties
    ([None]: the property is absent, reading it gives [undefined]). *)
Inductive JValue : Type :=
| JNull
| JBool (b : bool)
| JNum (z : Z)
| JStr (s : string)
| JArr (items : list JValue)
| JObj (url : option JValue) (children : option JValue)
       (others : list (string * JValue)).

(** ToBoolean *)
Definition truthy (v : JValue) : bool :=
  match v with
  | JNull => false
  | JBool b => b
  | JNum z => negb (Z.eqb z 0)
  | JStr s => negb (String.eqb s "")
  | JArr _ => true
  | JObj _ _ _ => true
  end.

(** ToBoolean of a property that may be [undefined] *)
Definition truthy_prop (p : option JValue) : bool :=
  match p with
  | Some v => truthy v
  | None => false
  end.

Definition isArray (v : JValue) : bool :=
  match v with
  | JArr _ => true
  | _ => false
  end.

(** ToBoolean of a string or [undefined]/[null] *)
Definition truthy_str (o : option string) : bool :=
  match o with
  | Some s => negb (String.eqb s "")
  | None => false
  end.

(** [a || b] where [a] is a string or [undefined] *)
Definition str_or (o : option string) (d : string) : string :=
  match o with
  | Some s => if String.eqb s "" then d else s
  | None => d
  end.

(** ** Numbers as strings *)

(** [Number.prototype.toString(16)] on a non-negative integer *)
Definition toString16 (n : N) : string :=
  match n with
  | N0 => "0"
  | Npos p => HexString.Raw.of_pos p ""
  end.

(** String coercion of a non-negative integer, as in [Date.now() + message]
    and in template literals *)
Definition toString10 (n : N) : string :=
  NilZero.string_of_uint (N.to_uint n).

Fixpoint zeros (k : nat) : string :=
  match k with
  | O => ""
  | S k' => String "0" (zeros k')
  end.

(** [s.padStart(8, '0')] *)
Definition padStart8 (s : string) : string :=
  zeros (8 - String.length s) +:+ s.

(** ToInt32: what the bitwise operators do to their operands *)
Definition toInt32 (z : Z) : Z :=
  ((z + 2 ^ 31) mod 2 ^ 32 - 2 ^ 31)%Z.

(** [a << 5] *)
Definition shl5 (a : Z) : Z := toInt32 (Z.shiftl (toInt32 a) 5).

(** [a & b] *)
Definition band (a b : Z) : Z := Z.land (toInt32 a) (toInt32 b).

(** [str.charCodeAt(i)]; strings are sequences of 8-bit code units here *)
Definition charCode (ch : ascii) : Z := Z.of_N (N_of_ascii ch).

(** ** GitManager.generateHash *)

(** The [for] loop of [generateHash], from character [i] on *)
Fixpoint hashLoop (str : string) (hash : Z) : Z :=
  match str with
  | EmptyString => hash
  | String ch rest =>
      let char := charCode ch in
      let hash := (shl5 hash - hash + char)%Z in
      let hash := band hash hash in
      hashLoop rest hash
  end.

(** [now] is the [Date.now()] read in the [return] statement *)
Definition generateHash (now : N) (input : string) : string :=
  let hash := hashLoop input 0%Z in
  padStart8 (toString16 (Z.to_N (Z.abs hash))) +:+ toString16 now.

(** ** Stat engine: GitManager.calculateStats *)

(** The two counters that the closure [countItems] increments *)
Record Counters : Type := mkCounters {
  cntBookmarks : N;
  cntFolders : N
}.

Module Stats.
Record t : Type := mk {
  totalBookmarks : N;
  totalFolders : N;
  totalItems : N
}.
End Stats.

(** The body of [for (const node of nodes)] up to the recursive call:
    reading [node.url] throws on [null]; every other value has (or lacks)
    the property. *)
Definition classify (node : JValue) (c : Counters) : option Counters :=
  match node with
  | JNull => None
  | JObj url _ _ =>
      if truthy_prop url
      then Some (mkCounters (cntBookmarks c + 1) (cntFolders c))
      else Some (mkCounters (cntBookmarks c) (cntFolders c + 1))
  | _ => Some (mkCounters (cntBookmarks c) (cntFolders c + 1))
  end.

(** [node.children] of a value other than [null] *)
Definition childrenOf (node : JValue) : option JValue :=
  match node with
  | JObj _ children _ => children
  | _ => None
  end.

(** [countItems(nodes)], threading the counters; [None] when it throws *)
Fixpoint countItems (nodes : JValue) (c : Counters) : option Counters :=
  match nodes with
  | JArr items =>
      (fix each (l : list JValue) (c : Counters) : option Counters :=
         match l with
         | [] => Some c
         | node :: rest =>
             match classify node c with
             | None => None
             | Some c1 =>
                 match node with
                 | JObj _ (Some ch) _ =>
                     if truthy ch
                     then match countItems ch c1 with
                          | None => None
                          | Some c2 => each rest c2
                          end
                     else each rest c1
                 | _ => each rest c1
                 end
             end
         end) items c
  | _ => Some c
  end.

Definition calculateStats (bookmarkData : JValue) : option Stats.t :=
  let c0 := mkCounters 0 0 in
  match (if isArray bookmarkData then countItems bookmarkData c0 else Some c0) with
  | None => None
  | Some c =>
      Some (Stats.mk (cntBookmarks c) (cntFolders c)
                     (cntBookmarks c + cntFolders c))
  end.

(** The nodes that the walk reaches, in the order it reaches them *)
Fixpoint visited (nodes : JValue) : list JValue :=
  match nodes with
  | JArr items =>
      flat_map (fun node =>
                  node :: match node with
                          | JObj _ (Some ch) _ => visited ch
                          | _ => []
                          end) items
  | _ => []
  end.

(** A visited node counts as a bookmark when its [url] is truthy *)
Definition hasUrl (node : JValue) : bool :=
  match node with
  | JObj url _ _ => truthy_prop url
  | _ => false
  end.

Definition isNull (v : JValue) : bool :=
  match v with
  | JNull => true
  | _ => false
  end.

(** Number of elements of [l] that satisfy [p] *)
Definition countIf {A} (p : A -> bool) (l : list A) : N :=
  N.of_nat (length (filter (fun x => p x = true) l)).

(** ** The persisted data *)

Module Person.
Record t : Type := mk {
  name : string;
  email : string;
  timestamp : N
}.
End Person.

Module Commit.
Record t : Type := mk {
  hash : string;
  message : string;
  author : Person.t;
  committer : Person.t;
  parent : option string;      (* [None]: null *)
  tree : string;
  data : JValue;
  stats : Stats.t
}.
End Commit.

Module Repo.
Record t : Type := mk {
  initialized : bool;
  created : N;
  head : option string;                  (* [None]: null *)
  branches : gmap string (option string)
}.
End Repo.

Module Config.
Record user_t : Type := mkUser {
  name : option string;
  email : option string
}.
Record t : Type := mk {
  user : option user_t
}.
End Config.

(** The events that [setupBookmarkListeners] subscribes to, each with the
    part of its [details] that [generateCommitMessage] reads. *)
Inductive BookmarkEvent : Type :=
| Created (id : string) (title url : option string)
| Removed (id : string)
| Moved (id : string)
| Changed (id : string)
| Reordered (id : string)
| ImportBegan
| ImportEnded.

Module Change.
Record t : Type := mk {
  timestamp : N;
  event : BookmarkEvent
}.
End Change.

Module HistoryEntry.
Record t : Type := mk {
  timestamp : N;
  changes : list Change.t;
  commitMessage : string
}.
End HistoryEntry.

(** [chrome.storage.local]: one field per key that the extension uses *)
Record Storage : Type := mkStorage {
  bookmark_git_repo : option Repo.t;
  bookmark_commits : option (gmap string Commit.t);
  current_branch : option string;
  git_config : option Config.t;
  changeHistory : option (list HistoryEntry.t)
}.

Definition emptyStorage : Storage := mkStorage None None None None None.

(** [chrome.storage.local.set(items)]: only the keys of [items] that carry a
    value are written *)
Definition putSlot {A} (new old : option A) : option A :=
  match new with
  | Some v => Some v
  | None => old
  end.

Definition storageSet (items s : Storage) : Storage :=
  mkStorage (putSlot (bookmark_git_repo items) (bookmark_git_repo s))
            (putSlot (bookmark_commits items) (bookmark_commits s))
            (putSlot (current_branch items) (current_branch s))
            (putSlot (git_config items) (git_config s))
            (putSlot (changeHistory items) (changeHistory s)).

(** [chrome.storage.local.remove([repositoryKey, commitsKey, branchKey])] *)
Definition storageRemoveRepository (s : Storage) : Storage :=
  mkStorage None None None (git_config s) (changeHistory s).

(** ** GitManager *)

Record GitManager : Type := mkGit {
  initialized : bool;
  storage : Storage
}.

Definition defaultName : string := "Bookmark Git Tracker".
Definition defaultEmail : string := "bookmark-tracker@extension.local".

Definition defaultConfig : Config.t :=
  Config.mk (Some (Config.mkUser (Some defaultName) (Some defaultEmail))).

(** The repository that [ensureRepository] creates *)
Definition newRepository (now : N) : Repo.t :=
  Repo.mk true now None {[ "main" := None ]}.

Definition ensureRepository (now : N) (s : Storage) : Storage :=
  match bookmark_git_repo s with
  | Some _ => s
  | None =>
      storageSet (mkStorage (Some (newRepository now)) (Some ∅) (Some "main")
                            (Some defaultConfig) None) s
  end.

Definition initialize (now : N) (g : GitManager) : GitManager :=
  if initialized g then g
  else mkGit true (ensureRepository now (storage g)).

(** [result[this.commitsKey] || {}] *)
Definition commitsOf (s : Storage) : gmap string Commit.t :=
  default ∅ (bookmark_commits s).

(** [result[this.branchKey] || 'main'] *)
Definition getCurrentBranch (s : Storage) : string :=
  str_or (current_branch s) "main".

(** [result[this.configKey] || {}] *)
Definition configOf (s : Storage) : Config.t :=
  default (Config.mk None) (git_config s).

Definition hasCommits (s : Storage) : bool :=
  negb (Nat.eqb (size (commitsOf s)) 0).

(** [config.user?.name || 'Bookmark Git Tracker'] *)
Definition authorName (config : Config.t) : string :=
  str_or (Config.user config ≫= Config.name) defaultName.

(** [config.user?.email || 'bookmark-tracker@extension.local'] *)
Definition authorEmail (config : Config.t) : string :=
  str_or (Config.user config ≫= Config.email) defaultEmail.

(** The four readings of [Date.now()] during one [createCommit], in the
    order in which they are taken *)
Record CommitClock : Type := mkClock {
  nowInput : N;        (* in the argument of [generateHash] *)
  nowHash : N;         (* inside [generateHash] *)
  nowAuthor : N;
  nowCommitter : N
}.

(** The clock of a call during which time does not advance *)
Definition instant (t : N) : CommitClock := mkClock t t t t.

Module Summary.
Record t : Type := mk {
  hash : string;
  shortHash : string;
  message : string;
  author : Person.t;
  committer : Person.t;
  stats : Stats.t;
  date : string
}.
End Summary.

(** A property that is [undefined], [null] or a value *)
Inductive JsOpt (A : Type) : Type :=
| JsUndefined
| JsNull
| JsVal (a : A).
Arguments JsUndefined {A}.
Arguments JsNull {A}.
Arguments JsVal {A} a.

Module RepoStats.
Record t : Type := mk {
  initialized : bool;
  totalCommits : nat;
  branches : nat;
  currentBranch : string;
  headCommit : JsOpt string;
  created : option N;
  lastCommit : JsOpt N
}.
End RepoStats.

Module Bundle.
Record t : Type := mk {
  repository : option Repo.t;
  commits : option (gmap string Commit.t);
  currentBranch : option string;
  config : option Config.t;
  exportDate : option string;
  version : option string
}.
End Bundle.

(** What the boundary methods of [BookmarkTracker] answer *)
Inductive Response : Type :=
| Success
| Failure (error : string).

(** The largest time value of a valid [Date] *)
Definition maxTimeValue : N := 8640000000000000.

(** The message of the TypeError raised by [data.repository] on [null] *)
Definition nullBundleError : string :=
  "Cannot read properties of null (reading 'repository')".

(** What the browser provides *)
Class Platform : Type := {
  (** [JSON.stringify] on bookmark trees *)
  stringify : JValue -> string;
  (** [new Date(t).toISOString()] on a valid time value *)
  isoFormat : N -> string;
  (** What [chrome.bookmarks.getTree()], called at a given time, resolves
      to; [None] when it rejects *)
  getTree : N -> option JValue;
  (** The time that [chrome.bookmarks.getTree()] takes to resolve *)
  treeLatency : N;
  (** The time that a call of [chrome.storage.local] takes to resolve *)
  storageLatency : N
}.

Section Model.

Context `{platform : Platform}.

(** [new Date(t).toISOString()]; a RangeError beyond the valid range *)
Definition toISOString (t : N) : option string :=
  if t <=? maxTimeValue then Some (isoFormat t) else None.

(** [createCommit(bookmarkData, message, author)]: the new hash and the
    storage after the call, or [None] when it throws *)
Definition createCommit (clk : CommitClock) (bookmarkData : JValue)
    (message author : string) (s : Storage) : option (string * Storage) :=
  let commitHash :=
    generateHash (nowHash clk)
      (toString10 (nowInput clk) +:+ message +:+ stringify bookmarkData) in
  let commits := commitsOf s in
  let currentBranch := getCurrentBranch s in
  let config := configOf s in
  match bookmark_git_repo s with
  | None => None                      (* [repo.head] of undefined *)
  | Some repo =>
      match calculateStats bookmarkData with
      | None => None
      | Some stats =>
          let commit :=
            Commit.mk commitHash message
              (Person.mk (authorName config) (authorEmail config) (nowAuthor clk))
              (Person.mk (authorName config) (authorEmail config) (nowCommitter clk))
              (Repo.head repo)
              (commitHash +:+ "_tree")
              bookmarkData
              stats in
          let commits := <[commitHash := commit]> commits in
          let repo :=
            Repo.mk (Repo.initialized repo) (Repo.created repo)
              (Some commitHash)
              (<[currentBranch := Some commitHash]> (Repo.branches repo)) in
          Some (commitHash,
                storageSet (mkStorage (Some repo) (Some commits) None None None) s)
      end
  end.

Definition summarize (commit : Commit.t) (date : string) : Summary.t :=
  Summary.mk (Commit.hash commit)
             (substring 0 8 (Commit.hash commit))
             (Commit.message commit)
             (Commit.author commit)
             (Commit.committer commit)
             (Commit.stats commit)
             date.

(** The [while] loop of [getCommitHistory]; [remaining] is
    [limit - count].  [None] when [toISOString] throws. *)
Fixpoint walkHistory (commits : gmap string Commit.t) (remaining : nat)
    (currentHash : option string) (history : list Summary.t)
    : option (list Summary.t) :=
  match remaining with
  | O => Some history
  | S remaining' =>
      match currentHash with
      | None => Some history
      | Some h =>
          if String.eqb h "" then Some history
          else
            match commits !! h with
            | None => Some history                       (* break *)
            | Some commit =>
                match toISOString (Person.timestamp (Commit.committer commit)) with
                | None => None
                | Some date =>
                    walkHistory commits remaining' (Commit.parent commit)
                                (history ++ [summarize commit date])%list
                end
            end
      end
  end.

Definition getCommitHistory (limit : nat) (s : Storage) : list Summary.t :=
  match bookmark_git_repo s with
  | None => []
  | Some repo =>
      if truthy_str (Repo.head repo)
      then default [] (walkHistory (commitsOf s) limit (Repo.head repo) [])
      else []
  end.

Definition getRepositoryStats (s : Storage) : RepoStats.t :=
  let repo := bookmark_git_repo s in
  let commits := commitsOf s in
  RepoStats.mk
    (bool_decide (is_Some repo))
    (size commits)
    (match repo with Some r => size (Repo.branches r) | None => 0%nat end)
    (getCurrentBranch s)
    (match repo with
     | None => JsUndefined
     | Some r => match Repo.head r with None => JsNull | Some h => JsVal h end
     end)
    (Repo.created <$> repo)
    (match repo with
     | None => JsNull
     | Some r =>
         match Repo.head r with
         | None => JsNull
         | Some h =>
             if String.eqb h "" then JsNull
             else match commits !! h with
                  | None => JsUndefined
                  | Some c => JsVal (Person.timestamp (Commit.committer c))
                  end
         end
     end).

(** [resetRepository()]: the three keys are removed, then [initialize]
    runs again *)
Definition resetRepository (now : N) (g : GitManager) : GitManager * bool :=
  let s := storageRemoveRepository (storage g) in
  (initialize now (mkGit false s), true).

Definition exportRepository (now : N) (s : Storage) : Bundle.t :=
  Bundle.mk (bookmark_git_repo s) (bookmark_commits s) (current_branch s)
            (git_config s) (Some (isoFormat now)) (Some "1.0.0").

(** ** BookmarkTracker *)

Record Tracker : Type := mkTracker {
  gitManager : GitManager;
  isInitialized : bool;
  pendingChanges : list Change.t;
  changeBuffer : option positive;      (* the id that [setTimeout] returned *)
  bufferDelay : N
}.

Definition eventType (e : BookmarkEvent) : string :=
  match e with
  | Created _ _ _ => "created"
  | Removed _ => "removed"
  | Moved _ => "moved"
  | Changed _ => "changed"
  | Reordered _ => "reordered"
  | ImportBegan => "import_began"
  | ImportEnded => "import_ended"
  end.

(** [eventCounts[type] = (eventCounts[type] || 0) + 1]; the keys of the
    object keep their insertion order *)
Fixpoint bump (type : string) (eventCounts : list (string * N))
    : list (string * N) :=
  match eventCounts with
  | [] => [(type, 1)]
  | (k, n) :: rest =>
      if String.eqb k type then (k, n + 1) :: rest
      else (k, n) :: bump type rest
  end.

Definition countEvents (changes : list Change.t) : list (string * N) :=
  fold_left (fun counts change => bump (eventType (Change.event change)) counts)
            changes [].

(** [generateCommitMessage(changes)]; the [default] of the [switch] is
    for event types that no listener produces *)
Definition generateCommitMessage (changes : list Change.t) : string :=
  match changes with
  | [change] =>
      match Change.event change with
      | Created _ title url =>
          "Added bookmark: " +:+ str_or title (str_or url "New folder")
      | Removed id => "Removed bookmark (ID: " +:+ id +:+ ")"
      | Moved id => "Moved bookmark (ID: " +:+ id +:+ ")"
      | Changed id => "Modified bookmark (ID: " +:+ id +:+ ")"
      | Reordered id => "Reordered bookmarks in folder (ID: " +:+ id +:+ ")"
      | ImportBegan => "Started bookmark import"
      | ImportEnded => "Completed bookmark import"
      end
  | _ =>
      let summary :=
        String.concat ", "
          (map (fun '(event, count) => toString10 count +:+ " " +:+ event)
               (countEvents changes)) in
      "Bulk bookmark changes: " +:+ summary
  end.

(** [storeChangeHistory(changes)]; [now] is its own [Date.now()] *)
Definition storeChangeHistory (now : N) (changes : list Change.t)
    (s : Storage) : Storage :=
  let history := default [] (changeHistory s) in
  let historyEntry :=
    HistoryEntry.mk now changes (generateCommitMessage changes) in
  let history := historyEntry :: history in               (* unshift *)
  let history :=
    if (100 <? length history)%nat then take 100 history  (* splice(100) *)
    else history in
  storageSet (mkStorage None None None None (Some history)) s.

(** [processBufferedChanges()] from the point where
    [await chrome.bookmarks.getTree()] resumes: [tree] is what it
    resolved to ([None]: it rejected), [clk] the clock of [createCommit],
    [nowHistory] the one of [storeChangeHistory].  An exception inside
    [try] leaves through [catch], which only logs. *)
Definition afterGetTree (tree : option JValue) (clk : CommitClock)
    (nowHistory : N) (tr : Tracker) : Tracker :=
  match tree with
  | None => tr
  | Some bookmarkTree =>
      let commitMessage := generateCommitMessage (pendingChanges tr) in
      match createCommit clk bookmarkTree commitMessage "user"
                         (storage (gitManager tr)) with
      | None => tr
      | Some (_, s) =>
          let s := storeChangeHistory nowHistory (pendingChanges tr) s in
          mkTracker (mkGit (initialized (gitManager tr)) s)
                    (isInitialized tr) [] None (bufferDelay tr)
      end
  end.

(** [processBufferedChanges()] when no other handler runs while it
    awaits *)
Definition processBufferedChanges (tree : option JValue) (clk : CommitClock)
    (nowHistory : N) (tr : Tracker) : Tracker :=
  match pendingChanges tr with
  | [] => tr
  | _ :: _ => afterGetTree tree clk nowHistory tr
  end.

(** [importRepository(data)]; [None] is a [null] bundle *)
Definition importRepository (now : N) (data : option Bundle.t)
    (tr : Tracker) : Tracker * Response :=
  let (g, _) := resetRepository now (gitManager tr) in
  match data with
  | None =>
      (mkTracker g (isInitialized tr) (pendingChanges tr) (changeBuffer tr)
                 (bufferDelay tr),
       Failure nullBundleError)
  | Some data =>
      let items :=
        mkStorage (Bundle.repository data)
                  (Bundle.commits data)
                  (Some (str_or (Bundle.currentBranch data) "main"))
                  (Some (default (Config.mk None) (Bundle.config data)))
                  None in
      (mkTracker (mkGit (initialized g) (storageSet items (storage g)))
                 (isInitialized tr) (pendingChanges tr) (changeBuffer tr)
                 (bufferDelay tr),
       Success)
  end.

(** [BookmarkTracker.resetRepository()] *)
Definition trackerResetRepository (now : N) (tr : Tracker)
    : Tracker * Response :=
  let (g, success) := resetRepository now (gitManager tr) in
  (mkTracker g (isInitialized tr) (pendingChanges tr) (changeBuffer tr)
             (bufferDelay tr),
   if success then Success else Failure "").

(** ** The event loop and the debounce state machine *)

(** What the event loop has to run later: the callback of a timeout, or
    [processBufferedChanges] resuming after one of its [await]s with the
    local variables that it still needs *)
Inductive Callback : Type :=
| TimerFired (id : positive)           (* the callback given to [setTimeout] *)
| TreeArrived (tree : option JValue)   (* [getTree] has resolved or rejected *)
| CommitRead (bookmarkTree : JValue) (commitMessage : string) (hashed : N)
    (* [createCommit] resumes after [Promise.all] of its four [get]s;
       [hashed] is the time at which it computed [commitHash] *)
| CommitWritten (items : Storage)
    (* the [set] of [createCommit] resolves *)
| HistoryRead (changes : positive)
    (* [storeChangeHistory] resumes after its [get]; [changes] is the
       array that it was called with *)
| HistoryWritten (items : Storage).
    (* the [set] of [storeChangeHistory] resolves *)

(** The tracker together with the agenda of the event loop (each entry
    has the time at which it becomes ready) and with the arrays that
    [this.pendingChanges] has been: [pendingChanges] of the tracker is
    the contents of the array [pendingArray], and [formerArrays] has the
    contents of the arrays that it replaced. *)
Record World : Type := mkWorld {
  tracker : Tracker;
  agenda : list (N * Callback);
  nextTimer : positive;
  pendingArray : positive;
  formerArrays : gmap positive (list Change.t)
}.

Definition isTimer (id : positive) (cb : Callback) : bool :=
  match cb with
  | TimerFired i => Pos.eqb i id
  | _ => false
  end.

(** [clearTimeout(id)] *)
Definition clearTimeout (id : positive) (entries : list (N * Callback))
    : list (N * Callback) :=
  filter (fun entry => isTimer id entry.2 = false) entries.

(** [handleBookmarkChange(eventType, details)] at time [now] *)
Definition handleBookmarkChange (now : N) (e : BookmarkEvent) (w : World)
    : World :=
  let tr := tracker w in
  let pending := pendingChanges tr ++ [Change.mk now e] in      (* push *)
  let entries :=
    match changeBuffer tr with
    | Some id => clearTimeout id (agenda w)
    | None => agenda w
    end in
  let id := nextTimer w in
  mkWorld (mkTracker (gitManager tr) (isInitialized tr) pending (Some id)
                     (bufferDelay tr))
          (entries ++ [(now + bufferDelay tr, TimerFired id)])
          (Pos.succ id) (pendingArray w) (formerArrays w).

(** A handler suspends: [cb] is what runs when the awaited call
    resolves, at time [due] *)
Definition suspend (due : N) (cb : Callback) (w : World) : World :=
  mkWorld (tracker w) (agenda w ++ [(due, cb)]) (nextTimer w)
          (pendingArray w) (formerArrays w).

(** A [set] takes effect *)
Definition write (items : Storage) (w : World) : World :=
  let tr := tracker w in
  mkWorld (mkTracker (mkGit (initialized (gitManager tr))
                            (storageSet items (storage (gitManager tr))))
                     (isInitialized tr) (pendingChanges tr)
                     (changeBuffer tr) (bufferDelay tr))
          (agenda w) (nextTimer w) (pendingArray w) (formerArrays w).

(** The contents of the array [changes] *)
Definition arrayContents (changes : positive) (w : World)
    : list Change.t :=
  if Pos.eqb changes (pendingArray w) then pendingChanges (tracker w)
  else default [] (formerArrays w !! changes).

(** [this.pendingChanges = []; this.changeBuffer = null] *)
Definition clearBuffer (w : World) : World :=
  let tr := tracker w in
  mkWorld (mkTracker (gitManager tr) (isInitialized tr) [] None
                     (bufferDelay tr))
          (agenda w) (nextTimer w) (Pos.succ (pendingArray w))
          (<[pendingArray w := pendingChanges tr]> (formerArrays w)).

(** A callback runs at time [now], up to the next [await] of its
    handler.  The timeout callback enters [processBufferedChanges],
    which returns at once on an empty buffer and otherwise calls
    [getTree].  An exception inside [try] leaves through [catch], which
    only logs: the handler ends and the world stays as it is. *)
Definition runCallback (now : N) (cb : Callback) (w : World) : World :=
  let tr := tracker w in
  match cb with
  | TimerFired _ =>
      match pendingChanges tr with
      | [] => w
      | _ :: _ => suspend (now + treeLatency) (TreeArrived (getTree now)) w
      end
  | TreeArrived None => w
  | TreeArrived (Some bookmarkTree) =>
      (* the message is generated and [createCommit] computes
         [commitHash], then awaits its four [get]s *)
      suspend (now + storageLatency)
              (CommitRead bookmarkTree
                          (generateCommitMessage (pendingChanges tr)) now)
              w
  | CommitRead bookmarkTree commitMessage hashed =>
      (* the commit object is built from what the [get]s read, and the
         [set] of the repository record and the commit table is called *)
      match createCommit (mkClock hashed hashed now now) bookmarkTree
                         commitMessage "user" (storage (gitManager tr)) with
      | None => w
      | Some (_, s) =>
          suspend (now + storageLatency)
                  (CommitWritten (mkStorage (bookmark_git_repo s)
                                            (bookmark_commits s)
                                            None None None))
                  w
      end
  | CommitWritten items =>
      (* [createCommit] returns; [storeChangeHistory] is called with
         [this.pendingChanges] and awaits its [get] *)
      suspend (now + storageLatency) (HistoryRead (pendingArray w))
              (write items w)
  | HistoryRead changes =>
      (* the entry is made of what the array holds by now, and the [set]
         of the log is called *)
      let s := storeChangeHistory now (arrayContents changes w)
                                  (storage (gitManager tr)) in
      suspend (now + storageLatency)
              (HistoryWritten (mkStorage None None None None
                                         (changeHistory s)))
              w
  | HistoryWritten items =>
      (* [storeChangeHistory] returns; the buffer is cleared *)
      clearBuffer (write items w)
  end.

(** The entry that is ready first (the older one of two that are ready
    at the same time), and the other entries *)
Fixpoint popEarliest (entries : list (N * Callback))
    : option ((N * Callback) * list (N * Callback)) :=
  match entries with
  | [] => None
  | x :: rest =>
      match popEarliest rest with
      | None => Some (x, [])
      | Some (y, rest') =>
          if y.1 <? x.1 then Some (y, x :: rest') else Some (x, rest)
      end
  end.

(** One turn of the event loop: the first entry runs if it is ready by
    [bound] ([None]: whenever it is ready) *)
Definition loopStep (bound : option N) (w : World) : World :=
  match popEarliest (agenda w) with
  | None => w
  | Some ((t, cb), rest) =>
      if match bound with Some now => t <=? now | None => true end
      then runCallback t cb
             (mkWorld (tracker w) rest (nextTimer w) (pendingArray w)
                      (formerArrays w))
      else w
  end.

(** Time passes until [now]: what is ready by then runs.  An entry
    causes at most six turns, the timeout and the five resumptions of
    [processBufferedChanges], so six times the length of the agenda is
    turns enough. *)
Definition advance (now : N) (w : World) : World :=
  Nat.iter (6 * length (agenda w)) (loopStep (Some now)) w.

(** The listeners receive the events of a trace, each at its time *)
Definition deliver (w : World) (ev : N * BookmarkEvent) : World :=
  handleBookmarkChange ev.1 ev.2 (advance ev.1 w).

Definition runEvents (evs : list (N * BookmarkEvent)) (w : World) : World :=
  fold_left deliver evs w.

(** After the last event everything that is left on the agenda runs *)
Definition settle (w : World) : World :=
  Nat.iter (6 * length (agenda w)) (loopStep None) w.

(** ** OptionsController: the import path *)

Inductive PendingAction : Type :=
| ImportAction (data : option Bundle.t)
| ResetAction.

Record OptionsController : Type := mkOptions {
  toast : option (string * string);          (* message, type *)
  pendingAction : option PendingAction
}.

(** What [JSON.parse(text)] gave for the chosen file *)
Inductive FileContent : Type :=
| Unparsable
| Parsed (data : option Bundle.t).

Definition validateBackupData (data : option Bundle.t) : bool :=
  match data with
  | None => false
  | Some d =>
      bool_decide (is_Some (Bundle.repository d))
      && bool_decide (is_Some (Bundle.commits d))
      && truthy_str (Bundle.version d)
  end.

Definition handleFileImport (file : FileContent) (oc : OptionsController)
    : OptionsController :=
  match file with
  | Unparsable =>
      mkOptions (Some ("Failed to read backup file", "error")) (pendingAction oc)
  | Parsed data =>
      if validateBackupData data
      then mkOptions (toast oc) (Some (ImportAction data))       (* showModal *)
      else mkOptions (Some ("Invalid backup file format", "error"))
                     (pendingAction oc)
  end.

(** The options page and the background page it sends messages to *)
Record Browser : Type := mkBrowser {
  options : OptionsController;
  background : Tracker
}.

(** [executeAction()]: the confirm button of the modal *)
Definition executeAction (now : N) (b : Browser) : Browser :=
  match pendingAction (options b) with
  | None => b
  | Some (ImportAction data) =>
      let (tr, result) := importRepository now data (background b) in
      mkBrowser
        (mkOptions
           (Some (match result with
                  | Success => ("Repository imported successfully", "success")
                  | Failure error =>
                      (if String.eqb error "" then "Failed to import repository"
                       else error, "error")
                  end))
           None)
        tr
  | Some ResetAction =>
      let (tr, result) := trackerResetRepository now (background b) in
      mkBrowser
        (mkOptions
           (Some (match result with
                  | Success => ("Repository reset successfully", "success")
                  | Failure _ => ("Failed to reset repository", "error")
                  end))
           None)
        tr
  end.

End Model.

(** ** A concrete platform, to run the model *)

Definition quote : string := String (ascii_of_nat 34) "".

Definition sampleNumber (z : Z) : string :=
  match z with
  | Zneg p => "-" +:+ toString10 (Npos p)
  | _ => toString10 (Z.to_N z)
  end.

(** A serializer in the manner of [JSON.stringify] (strings are not escaped) *)
Fixpoint sampleStringify (v : JValue) : string :=
  match v with
  | JNull => "null"
  | JBool b => if b then "true" else "false"
  | JNum z => sampleNumber z
  | JStr s => quote +:+ s +:+ quote
  | JArr items => "[" +:+ String.concat "," (map sampleStringify items) +:+ "]"
  | JObj url children others =>
      let field k v := quote +:+ k +:+ quote +:+ ":" +:+ sampleStringify v in
      "{" +:+ String.concat ","
                (match url with Some u => [field "url" u] | None => [] end
                 ++ match children with Some c => [field "children" c] | None => [] end
                 ++ map (fun kv => field kv.1 kv.2) others)%list
          +:+ "}"
  end.

(** Dates are shown as their time value *)
Definition sampleIso (t : N) : string := toString10 t.

Definition sampleBookmark (title url : string) : JValue :=
  JObj (Some (JStr url)) None [("title", JStr title)].

Definition sampleFolder (title : string) (children : list JValue) : JValue :=
  JObj None (Some (JArr children)) [("title", JStr title)].

Definition sampleTree : JValue :=
  JArr [sampleFolder "root"
          [sampleFolder "bar"
             [sampleBookmark "Rocq" "https://rocq-prover.org";
              sampleBookmark "Example" "https://example.org"];
           sampleFolder "other" []]].

Definition sampleGetTree (_ : N) : option JValue := Some sampleTree.

(** The storage right after installation, initialised at time 5 *)
Definition freshGit : GitManager := initialize 5 (mkGit false emptyStorage).

Definition idleTracker (g : GitManager) : Tracker :=
  mkTracker g true [] None 1000.

Definition idleWorld (g : GitManager) : World :=
  mkWorld (idleTracker g) [] 1%positive 1%positive ∅.

(** [getTree] takes five milliseconds *)
Definition sampleLatency : N := 5.

(** A call of [chrome.storage.local] takes two milliseconds *)
Definition sampleStorageLatency : N := 2.

Definition samplePlatform : Platform :=
  {| stringify := sampleStringify;
     isoFormat := sampleIso;
     getTree := sampleGetTree;
     treeLatency := sampleLatency;
     storageLatency := sampleStorageLatency |}.

(** ** Vocabulary of the statements *)

Section Vocabulary.

Context `{platform : Platform}.



(** [head] is [h], the current branch points to it, and the commit table
    has it *)
Definition headIs (s : Storage) (h : string) : Prop :=
  ∃ repo,
    bookmark_git_repo s = Some repo
    ∧ Repo.head repo = Some h
    ∧ Repo.branches repo !! getCurrentBranch s = Some (Some h)
    ∧ is_Some (commitsOf s !! h).

(** The change-history log: newest entry first *)
Definition newestFirst (history : list HistoryEntry.t) : Prop :=
  StronglySorted
    (fun a b => HistoryEntry.timestamp b ≤ HistoryEntry.timestamp a) history.

Definition logInvariant (history : list HistoryEntry.t) : Prop :=
  (length history ≤ 100)%nat ∧ newestFirst history.

(** The hash that [createCommit] computes *)
Definition commitHashOf (clk : CommitClock) (bookmarkData : JValue)
    (message : string) : string :=
  generateHash (nowHash clk)
    (toString10 (nowInput clk) +:+ message +:+ stringify bookmarkData).

(** The counters after the nodes of [l] have been classified *)
Definition counted (c : Counters) (l : list JValue) : Counters :=
  mkCounters (cntBookmarks c + countIf hasUrl l)
             (cntFolders c + countIf (fun v => negb (hasUrl v)) l).

(** [repo?.head] *)
Definition headOf (s : Storage) : option string :=
  bookmark_git_repo s ≫= Repo.head.




(** The summary that [getCommitHistory] makes of a commit *)
Definition summaryOf (c : Commit.t) : Summary.t :=
  summarize c (isoFormat (Person.timestamp (Commit.committer c))).

(** The storages that the extension can be in once the commit store has
    been initialised *)
Inductive Reachable : Storage → Prop :=
| reach_initialize (now : N) (s0 : Storage) :
    Reachable (storage (initialize now (mkGit false s0)))
| reach_createCommit clk bookmarkData message author s h s' :
    Reachable s →
    createCommit clk bookmarkData message author s = Some (h, s') →
    Reachable s'
| reach_storeChangeHistory now changes s :
    Reachable s → Reachable (storeChangeHistory now changes s)
| reach_resetRepository now flag s :
    Reachable s →
    Reachable (storage (resetRepository now (mkGit flag s)).1)
| reach_importRepository now data (tr : Tracker) :
    Reachable (storage (gitManager tr)) →
    Reachable (storage (gitManager (importRepository now data tr).1)).

(** Every import that the modal is armed with has passed
    [validateBackupData] *)
Definition armedValid (oc : OptionsController) : Prop :=
  ∀ data, pendingAction oc = Some (ImportAction data) →
          validateBackupData data = true.

(** ** Bursts of events *)

(** A burst: its first event and the events that follow it *)
Definition Burst : Type := (N * BookmarkEvent) * list (N * BookmarkEvent).

Definition eventsOf (b : Burst) : list (N * BookmarkEvent) := b.1 :: b.2.

(** The entries that [handleBookmarkChange] pushes for these events *)
Definition changesOf (evs : list (N * BookmarkEvent)) : list Change.t :=
  map (fun ev => Change.mk ev.1 ev.2) evs.

Definition firstTime (b : Burst) : N := b.1.1.

Definition lastTime (b : Burst) : N := List.last (map fst b.2) (firstTime b).





(** The clock of the [createCommit] that starts when the tree arrives
    at time [arrived]: the hash is computed at once, the commit object
    is built when the four [get]s have resolved *)
Definition clockOfCommit (arrived : N) : CommitClock :=
  mkClock arrived arrived (arrived + storageLatency)
          (arrived + storageLatency).

(** The time at which [storeChangeHistory] makes its entry, for a tree
    that arrived at time [arrived]: three calls of [chrome.storage.local]
    later *)
Definition loggedAt (arrived : N) : N := arrived + 3 * storageLatency.

(** One commit for [changes] when the timeout fires at time [due] and
    no event arrives before the buffer is cleared: the tree is asked for
    at [due], and the commit and its log entry are made after it has
    arrived *)
Definition commitChanges (due : N) (changes : list Change.t) (s : Storage)
    : Storage :=
  match getTree due with
  | None => s
  | Some bookmarkTree =>
      match createCommit (clockOfCommit (due + treeLatency)) bookmarkTree
                         (generateCommitMessage changes) "user" s with
      | None => s
      | Some (_, s1) =>
          storeChangeHistory (loggedAt (due + treeLatency)) changes s1
      end
  end.

(** One commit for a burst; its timeout fires [delay] after its last
    event *)
Definition commitBurst (delay : N) (s : Storage) (b : Burst) : Storage :=
  commitChanges (lastTime b + delay) (changesOf (eventsOf b)) s.


(** Idle: nothing pending, nothing on the agenda; [array] is the
    pending array and [former] are the arrays before it *)
Definition idleW (g : GitManager) (isInit : bool) (delay : N)
    (next : positive) (array : positive)
    (former : gmap positive (list Change.t)) : World :=
  mkWorld (mkTracker g isInit [] None delay) [] next array former.




(** [bound] lets an entry that is ready at time [t] run *)
Definition admits (bound : option N) (t : N) : Prop :=
  match bound with
  | Some now => t ≤ now
  | None => True
  end.

(** The turns of the event loop that an agenda can still cause: a
    timeout may start [processBufferedChanges], which resumes up to five
    times *)
Definition turnsOf (cb : Callback) : nat :=
  match cb with
  | TimerFired _ => 6
  | TreeArrived _ => 5
  | CommitRead _ _ _ => 4
  | CommitWritten _ => 3
  | HistoryRead _ => 2
  | HistoryWritten _ => 1
  end.

Definition turns (entries : list (N * Callback)) : nat :=
  list_sum (map (fun entry => turnsOf entry.2) entries).

End Vocabulary.

(** ** Sample states *)




(** The storage after the initial snapshot has been committed *)
Definition committedStorage : Storage :=
  match createCommit (platform := samplePlatform) (instant 1000) sampleTree
                     "Initial bookmark snapshot" "system" (storage freshGit) with
  | Some (_, s) => s
  | None => storage freshGit
  end.

(** A bundle without the [commits] field *)
Definition bundleWithoutCommits : Bundle.t :=
  Bundle.mk (Some (newRepository 7)) None (Some "main") None
            (Some "1970-01-01T00:00:00.007Z") (Some "1.0.0").

(** A tracker whose storage has lost the repository record, with one
    change buffered and its timeout about to fire *)
Definition strandedTracker : Tracker :=
  mkTracker (mkGit true emptyStorage) true [Change.mk 10 (Removed "8")]
            (Some 1%positive) 1000.


(** The debounce examples: three events within one quiet period, and two
    events further apart than the quiet period *)
Definition oneBurst : list Burst :=
  [((0, Created "7" (Some "Rocq") (Some "https://rocq-prover.org")),
    [(200, Moved "7"); (900, Created "9" None None)])].

Definition twoBursts : list Burst :=
  [((0, Created "7" (Some "Rocq") (Some "https://rocq-prover.org")), []);
   ((1500, Removed "7"), [])].

(** A storage whose log has one entry *)
Definition loggedStorage : Storage :=
  storeChangeHistory 10 [Change.mk 5 (Removed "8")] (storage freshGit).





(** * The rest of the commit store and of the tracker *)

Module DiffCount.
Record t : Type := mk {
  added : N;
  removed : N;
  changed : N
}.
End DiffCount.

Module Diff.
Record t : Type := mk {
  bookmarks : DiffCount.t;
  folders : DiffCount.t
}.
End Diff.

(** [Math.max(0, a - b)] on two counts *)
Definition maxZeroSub (a b : N) : N :=
  Z.to_N (Z.max 0 (Z.of_N a - Z.of_N b)).

(** [calculateDiff(data1, data2)]; it throws when [calculateStats] does *)
Definition calculateDiff (data1 data2 : JValue) : option Diff.t :=
  match calculateStats data1 with
  | None => None
  | Some stats1 =>
      match calculateStats data2 with
      | None => None
      | Some stats2 =>
          Some (Diff.mk
                  (DiffCount.mk
                     (maxZeroSub (Stats.totalBookmarks stats2)
                                 (Stats.totalBookmarks stats1))
                     (maxZeroSub (Stats.totalBookmarks stats1)
                                 (Stats.totalBookmarks stats2))
                     0)
                  (DiffCount.mk
                     (maxZeroSub (Stats.totalFolders stats2)
                                 (Stats.totalFolders stats1))
                     (maxZeroSub (Stats.totalFolders stats1)
                                 (Stats.totalFolders stats2))
                     0))
      end
  end.

(** The diff with its two snapshots exchanged *)
Definition mirror (d : Diff.t) : Diff.t :=
  let swap c := DiffCount.mk (DiffCount.removed c) (DiffCount.added c)
                             (DiffCount.changed c) in
  Diff.mk (swap (Diff.bookmarks d)) (swap (Diff.folders d)).

Definition zeroDiff : Diff.t :=
  Diff.mk (DiffCount.mk 0 0 0) (DiffCount.mk 0 0 0).

(** The digits that [toString(16)] writes *)
Definition hexDigit (c : ascii) : bool :=
  let n := N_of_ascii c in
  ((48 <=? n) && (n <=? 57)) || ((97 <=? n) && (n <=? 102)).

Fixpoint allChars (p : ascii -> bool) (s : string) : bool :=
  match s with
  | EmptyString => true
  | String c s' => p c && allChars p s'
  end.

(** [getCommitData(commitHash)]: [commit ? commit.data : null] *)
Definition getCommitData (commitHash : string) (s : Storage) : JValue :=
  match commitsOf s !! commitHash with
  | Some commit => Commit.data commit
  | None => JNull
  end.

(** [getCommitDiff(commitHash1, commitHash2)]; [None] is null, also when
    [calculateDiff] throws into the [catch] *)
Definition getCommitDiff (commitHash1 commitHash2 : string) (s : Storage)
    : option Diff.t :=
  let data1 := getCommitData commitHash1 s in
  let data2 := getCommitData commitHash2 s in
  if negb (truthy data1) || negb (truthy data2) then None
  else calculateDiff data1 data2.

(** [getBranches()]: [repo ? repo.branches : { main: null }] *)
Definition getBranches (s : Storage) : gmap string (option string) :=
  match bookmark_git_repo s with
  | Some repo => Repo.branches repo
  | None => {[ "main" := None ]}
  end.

(** Why a boundary method of the tracker answers [success: false]: the
    message of the exception it caught stands for its cause *)
Inductive Fault : Type :=
| TreeRejected          (* [chrome.bookmarks.getTree()] rejected *)
| CommitThrew.          (* [createCommit] threw *)

(** The answer of [createManualSnapshot] *)
Inductive SnapshotReply : Type :=
| SnapshotCreated       (* [{ success: true, message: 'Snapshot created successfully' }] *)
| SnapshotFailed (cause : Fault).

(** The answer of [restoreFromCommit] *)
Inductive RestoreReply : Type :=
| Restored (data : JValue)
| RestoreFailed (error : string).

Module Status.
Record t : Type := mk {
  initialized : bool;
  pendingChanges : nat
}.
End Status.

(** The messages that the popup and the options page send *)
Inductive Request : Type :=
| CreateSnapshot (message : option string)
| GetCommitHistory (limit : option nat)
| RestoreFromCommit (commitHash : string)
| GetStatus
| GetRepositoryStats
| ExportRepository
| ImportRepository (data : option Bundle.t)
| ResetRepository
| OtherAction (action : string).

Inductive Reply : Type :=
| SnapshotAnswer (r : SnapshotReply)
| HistoryAnswer (history : list Summary.t)
| RestoreAnswer (r : RestoreReply)
| StatusAnswer (status : Status.t)
| StatsAnswer (stats : RepoStats.t)
| BundleAnswer (bundle : Bundle.t)
| ResponseAnswer (r : Response)
| ErrorAnswer (error : string).

(** What a message handler reads from its surroundings: the clock, the
    clock of a [createCommit], and what [getTree] resolves to *)
Record Surroundings : Type := mkSurroundings {
  nowIs : N;
  commitClock : CommitClock;
  treeIs : option JValue
}.

Section MoreModel.

Context `{platform : Platform}.

(** [createInitialSnapshot()]; every exception ends in its [catch] *)
Definition createInitialSnapshot (tree : option JValue) (clk : CommitClock)
    (s : Storage) : Storage :=
  match tree with
  | None => s
  | Some bookmarkTree =>
      if hasCommits s then s
      else match createCommit clk bookmarkTree "Initial bookmark snapshot"
                              "system" s with
           | Some (_, s') => s'
           | None => s
           end
  end.

(** [BookmarkTracker.initialize()] *)
Definition trackerInitialize (now : N) (tree : option JValue)
    (clk : CommitClock) (tr : Tracker) : Tracker :=
  if isInitialized tr then tr
  else
    let g := initialize now (gitManager tr) in
    let s := createInitialSnapshot tree clk (storage g) in
    mkTracker (mkGit (initialized g) s) true (pendingChanges tr)
              (changeBuffer tr) (bufferDelay tr).

(** [createManualSnapshot(message = 'Manual bookmark snapshot')];
    [None] is an omitted message *)
Definition createManualSnapshot (tree : option JValue) (clk : CommitClock)
    (message : option string) (tr : Tracker) : Tracker * SnapshotReply :=
  let message := default "Manual bookmark snapshot" message in
  match tree with
  | None => (tr, SnapshotFailed TreeRejected)
  | Some bookmarkTree =>
      match createCommit clk bookmarkTree message "manual"
                         (storage (gitManager tr)) with
      | None => (tr, SnapshotFailed CommitThrew)
      | Some (_, s) =>
          (mkTracker (mkGit (initialized (gitManager tr)) s)
                     (isInitialized tr) (pendingChanges tr)
                     (changeBuffer tr) (bufferDelay tr),
           SnapshotCreated)
      end
  end.

(** [BookmarkTracker.getCommitHistory(limit = 50)] *)
Definition trackerGetCommitHistory (limit : option nat) (tr : Tracker)
    : list Summary.t :=
  getCommitHistory (default 50%nat limit) (storage (gitManager tr)).

(** [restoreFromCommit(commitHash)] *)
Definition restoreFromCommit (commitHash : string) (tr : Tracker)
    : RestoreReply :=
  let bookmarkData := getCommitData commitHash (storage (gitManager tr)) in
  if negb (truthy bookmarkData) then RestoreFailed "Commit data not found"
  else Restored bookmarkData.

(** The listener of [chrome.runtime.onMessage] *)
Definition handleMessage (env : Surroundings) (request : Request)
    (tr : Tracker) : Tracker * Reply :=
  match request with
  | CreateSnapshot message =>
      let (tr', r) := createManualSnapshot (treeIs env) (commitClock env)
                                           message tr in
      (tr', SnapshotAnswer r)
  | GetCommitHistory limit =>
      (tr, HistoryAnswer (trackerGetCommitHistory limit tr))
  | RestoreFromCommit commitHash =>
      (tr, RestoreAnswer (restoreFromCommit commitHash tr))
  | GetStatus =>
      (tr, StatusAnswer (Status.mk (isInitialized tr)
                                   (length (pendingChanges tr))))
  | GetRepositoryStats =>
      (tr, StatsAnswer (getRepositoryStats (storage (gitManager tr))))
  | ExportRepository =>
      (tr, BundleAnswer (exportRepository (nowIs env)
                                          (storage (gitManager tr))))
  | ImportRepository data =>
      let (tr', r) := importRepository (nowIs env) data tr in
      (tr', ResponseAnswer r)
  | ResetRepository =>
      let (tr', r) := trackerResetRepository (nowIs env) tr in
      (tr', ResponseAnswer r)
  | OtherAction _ => (tr, ErrorAnswer "Unknown action")
  end.

End MoreModel.

(** ** Vocabulary of the bulk message *)

(** The event types of the pending changes, in the order of the changes *)
Definition typesOf (changes : list Change.t) : list string :=
  map (fun change => eventType (Change.event change)) changes.

(** The elements of [l], each once, in the order of their first
    occurrence *)
Fixpoint firstOccurrences (l : list string) : list string :=
  match l with
  | [] => []
  | x :: rest => x :: filter (fun y => y ≠ x) (firstOccurrences rest)
  end.

(** How many elements of [l] are [type] *)
Definition occurrences (type : string) (l : list string) : N :=
  countIf (String.eqb type) l.

(** * The popup *)

Module BookmarkStats.
Record t : Type := mk {
  totalBookmarks : N;
  totalFolders : N
}.
End BookmarkStats.

(** The closure [countItems] of [PopupController.calculateBookmarkStats]:
    an item with a truthy [url] is a bookmark, and the walk does not look
    below it; an item with truthy [children] is a folder; any other item
    counts as nothing.  Reading [item.url] throws on [null]. *)
Fixpoint popupCountItems (items : JValue) (c : Counters) : option Counters :=
  match items with
  | JArr l =>
      (fix each (l : list JValue) (c : Counters) : option Counters :=
         match l with
         | [] => Some c
         | item :: rest =>
             match item with
             | JNull => None
             | JObj url children _ =>
                 if truthy_prop url
                 then each rest (mkCounters (cntBookmarks c + 1) (cntFolders c))
                 else
                   match children with
                   | Some ch =>
                       if truthy ch
                       then
                         match popupCountItems ch
                                 (mkCounters (cntBookmarks c) (cntFolders c + 1)) with
                         | None => None
                         | Some c2 => each rest c2
                         end
                       else each rest c
                   | None => each rest c
                   end
             | _ => each rest c
             end
         end) l c
  | _ => Some c
  end.

(** [calculateBookmarkStats(nodes)]; [None] when it throws *)
Definition calculateBookmarkStats (nodes : JValue) : option BookmarkStats.t :=
  match popupCountItems nodes (mkCounters 0 0) with
  | None => None
  | Some c => Some (BookmarkStats.mk (cntBookmarks c) (cntFolders c))
  end.

(** [getRepoStats()]: the stats of the tree that [getTree] resolves to, and
    zeros from the [catch] when [getTree] rejects or the count throws *)
Definition getRepoStats (tree : option JValue) : BookmarkStats.t :=
  match tree ≫= calculateBookmarkStats with
  | Some stats => stats
  | None => BookmarkStats.mk 0 0
  end.

(** The trees of [chrome.bookmarks.getTree]: an array of nodes, each of
    them a bookmark (a truthy [url] and no truthy [children]) or a folder
    (no truthy [url], and such an array as [children]) *)
Fixpoint bookmarkNodes (nodes : JValue) : bool :=
  match nodes with
  | JArr items =>
      forallb (fun node =>
                 match node with
                 | JObj url children _ =>
                     if truthy_prop url then negb (truthy_prop children)
                     else match children with
                          | Some ch => bookmarkNodes ch
                          | None => false
                          end
                 | _ => false
                 end) items
  | _ => false
  end.

(** What [getRelativeTime] returns *)
Inductive RelativeTime : Type :=
| JustNow                     (* ['just now'] *)
| MinutesAgo (minutes : Z)    (* [`${minutes}m ago`] *)
| HoursAgo (hours : Z)        (* [`${hours}h ago`] *)
| DaysAgo (days : Z)          (* [`${days}d ago`] *)
| OnDate (date : N).          (* [date.toLocaleDateString()] *)

(** [getRelativeTime(date)]; [now] is its [Date.now()], [date] the time
    value of its argument *)
Definition getRelativeTime (now date : N) : RelativeTime :=
  let diff := (Z.of_N now - Z.of_N date)%Z in
  let minutes := (diff / 60000)%Z in
  let hours := (diff / 3600000)%Z in
  let days := (diff / 86400000)%Z in
  if (minutes <? 1)%Z then JustNow
  else if (minutes <? 60)%Z then MinutesAgo minutes
  else if (hours <? 24)%Z then HoursAgo hours
  else if (days <? 30)%Z then DaysAgo days
  else OnDate date.

(** What [formatDuration] returns *)
Inductive Duration : Type :=
| LessThanHour                (* ['< 1h'] *)
| Hours (hours : Z)           (* [`${hours}h`] *)
| Days (days : Z).            (* [`${days}d`] *)

(** [formatDuration(ms)]: [Math.floor] of the quotients, [%] with the sign
    of the dividend *)
Definition formatDuration (ms : Z) : Duration :=
  let days := (ms / 86400000)%Z in
  let hours := (Z.rem ms 86400000 / 3600000)%Z in
  if (days =? 0)%Z && (hours =? 0)%Z then LessThanHour
  else if (days =? 0)%Z then Hours hours
  else Days days.

(** [s.includes(query)] *)
Fixpoint includes (s query : string) : bool :=
  String.prefix query s
  || match s with
     | EmptyString => false
     | String _ rest => includes rest query
     end.

(** What the popup keeps between two events *)
Record Popup : Type := mkPopup {
  statusText : string;
  commitHistory : list Summary.t;
  filteredHistory : list Summary.t;
  repoStats : option BookmarkStats.t
}.

(** [new PopupController()] before [loadData] has answered *)
Definition newPopup : Popup := mkPopup "Loading..." [] [] None.

(** What the page needs from the browser's locale *)
Class Locale : Type := {
  (** [String.prototype.toLowerCase] *)
  toLowerCase : string -> string
}.

Section PopupModel.

Context `{platform : Platform} `{locale : Locale}.

(** The predicate of the [filter] in [filterCommits] *)
Definition matchesQuery (query : string) (commit : Summary.t) : bool :=
  includes (toLowerCase (Summary.message commit)) query
  || includes (toLowerCase (Summary.hash commit)) query
  || includes (toLowerCase (Person.name (Summary.author commit))) query.

(** The commits that [renderCommitHistory] renders, in the order in which
    it renders them *)
Definition renderCommitHistory (p : Popup) : list Summary.t :=
  if (0 <? length (filteredHistory p))%nat then filteredHistory p
  else commitHistory p.

(** [filterCommits()]; [searchInput] is the value of the search field *)
Definition filterCommits (searchInput : string) (p : Popup) : Popup :=
  let query := toLowerCase searchInput in
  let filtered :=
    if String.eqb query "" then commitHistory p
    else List.filter (matchesQuery query) (commitHistory p) in
  mkPopup (statusText p) (commitHistory p) filtered (repoStats p).

(** [loadData()]: the three requests are answered by the background page
    [tr]; [tree] is what the popup's own [getTree] resolves to *)
Definition loadData (env : Surroundings) (tree : option JValue)
    (tr : Tracker) (p : Popup) : Popup :=
  let status := (handleMessage env GetStatus tr).2 in
  let history := (handleMessage env (GetCommitHistory (Some 50%nat)) tr).2 in
  let stats := getRepoStats tree in
  match status with
  | StatusAnswer st =>
      if Status.initialized st
      then mkPopup "Active"
                   (match history with
                    | HistoryAnswer h => h      (* [Array.isArray(history)] *)
                    | _ => []
                    end)
                   (filteredHistory p) (Some stats)
      else mkPopup "Not initialized" (commitHistory p) (filteredHistory p)
                   (repoStats p)
  | _ => mkPopup "Not initialized" (commitHistory p) (filteredHistory p)
                 (repoStats p)
  end.

(** The number that [updateStatsPanel] shows as total commits *)
Definition shownTotalCommits (p : Popup) : nat := length (commitHistory p).

End PopupModel.

(** * The settings page *)

Module Settings.
Record t : Type := mk {
  authorName : string;
  authorEmail : string;
  autoCommit : bool;
  commitDelay : Z
}.
End Settings.

(** The settings of the constructor and of [resetToDefaults] *)
Definition defaultSettings : Settings.t :=
  Settings.mk defaultName defaultEmail true 1.

(** The value stored under [extension_settings] *)
Module ExtensionSettings.
Record t : Type := mk {
  autoCommit : bool;
  commitDelay : Z
}.
End ExtensionSettings.

(** [chrome.storage.local] with the key that only the settings page uses *)
Record LocalStorage : Type := mkLocal {
  repositorySlots : Storage;
  extension_settings : option ExtensionSettings.t
}.

(** The form of the settings page; [delayField] is
    [parseInt(this.commitDelay.value)], [None] when that is NaN *)
Record SettingsForm : Type := mkForm {
  nameField : string;
  emailField : string;
  autoCommitBox : bool;
  delayField : option Z
}.

(** [a || b] on numbers *)
Definition num_or (a : option Z) (d : Z) : Z :=
  match a with
  | Some z => if (z =? 0)%Z then d else z
  | None => d
  end.

(** [loadSettings()]: the settings after it; [current] are the settings
    before *)
Definition loadSettings (current : Settings.t) (ls : LocalStorage)
    : Settings.t :=
  let gitConfig := configOf (repositorySlots ls) in
  let named :=
    match Config.user gitConfig with
    | Some user =>
        Settings.mk (str_or (Config.name user) (Settings.authorName current))
                    (str_or (Config.email user) (Settings.authorEmail current))
                    (Settings.autoCommit current) (Settings.commitDelay current)
    | None => current
    end in
  match extension_settings ls with
  | Some ext =>
      Settings.mk (Settings.authorName named) (Settings.authorEmail named)
                  (ExtensionSettings.autoCommit ext)
                  (num_or (Some (ExtensionSettings.commitDelay ext))
                          (Settings.commitDelay named))
  | None => named
  end.

(** The settings that [onSettingChange] reads from the form *)
Definition onSettingChange (form : SettingsForm) : Settings.t :=
  Settings.mk (nameField form) (emailField form) (autoCommitBox form)
              (num_or (delayField form) 1).

(** [saveSettingsToStorage()] *)
Definition saveSettingsToStorage (settings : Settings.t) (ls : LocalStorage)
    : LocalStorage :=
  let gitConfig :=
    Config.mk (Some (Config.mkUser (Some (Settings.authorName settings))
                                   (Some (Settings.authorEmail settings)))) in
  mkLocal (storageSet (mkStorage None None None (Some gitConfig) None)
                      (repositorySlots ls))
          (Some (ExtensionSettings.mk (Settings.autoCommit settings)
                                      (Settings.commitDelay settings))).

(** What [loadStats] writes on the page *)
Module StatsView.
Record t : Type := mk {
  totalCommits : nat;
  currentBranch : string;
  lastCommitDate : option N;       (* [None]: ['Never'] *)
  repoSizeKB : N
}.
End StatsView.

(** [Math.round((totalCommits * 50) / 1024) || 1] *)
Definition sizeKB (totalCommits : nat) : N :=
  let rounded := (N.of_nat totalCommits * 100 + 1024) / 2048 in
  if rounded =? 0 then 1 else rounded.

(** [loadStats()] on the answer of the background page *)
Definition loadStats (stats : RepoStats.t) : StatsView.t :=
  StatsView.mk
    (RepoStats.totalCommits stats)
    (if String.eqb (RepoStats.currentBranch stats) "" then "main"
     else RepoStats.currentBranch stats)
    (match RepoStats.lastCommit stats with
     | JsVal t => if t =? 0 then None else Some t
     | _ => None
     end)
    (sizeKB (RepoStats.totalCommits stats)).

(** A concrete locale: the letters A to Z are lowered *)
Definition sampleLowerChar (c : ascii) : ascii :=
  let n := N_of_ascii c in
  if (65 <=? n) && (n <=? 90) then ascii_of_N (n + 32) else c.

Fixpoint sampleLower (s : string) : string :=
  match s with
  | EmptyString => EmptyString
  | String c rest => String (sampleLowerChar c) (sampleLower rest)
  end.

Definition sampleLocale : Locale := {| toLowerCase := sampleLower |}.

(** ** Sample states of the tracker and of the pages *)

(** The snapshot of the second sample call *)
Definition secondSnapshot : JValue :=
  JArr [sampleBookmark "Rocq" "https://rocq-prover.org"].

(** The storage after a manual snapshot has followed the initial one *)
Definition twiceCommittedStorage : Storage :=
  match createCommit (platform := samplePlatform) (instant 2500)
                     secondSnapshot "Manual bookmark snapshot" "manual"
                     committedStorage with
  | Some (_, s) => s
  | None => committedStorage
  end.

(** [new BookmarkTracker()] on a browser that has never run the
    extension *)
Definition newTracker : Tracker :=
  mkTracker (mkGit false emptyStorage) false [] None 1000.

(** The tracker of a later start of the browser *)
Definition restartedTracker : Tracker :=
  mkTracker (mkGit false committedStorage) false [] None 1000.

(** A tree with a node that has neither [url] nor [children] *)
Definition bareTree : JValue := JArr [JObj None None [("title", JStr "x")]].

Definition sampleSurroundings : Surroundings :=
  mkSurroundings 3000 (instant 3000) (Some sampleTree).

(** A popup that has loaded the two sample commits *)
Definition samplePopup : Popup :=
  mkPopup "Active"
          (getCommitHistory (platform := samplePlatform) 50
                            twiceCommittedStorage)
          [] None.

Definition sampleForm : SettingsForm :=
  mkForm "Ada" "ada@example.org" false (Some 0%Z).

Definition sampleSettings : Settings.t :=
  Settings.mk "Ada" "" false 5.

(** The settings page with the reset armed *)
Definition resetArmed : Browser :=
  mkBrowser (mkOptions None (Some ResetAction))
            (idleTracker (mkGit true committedStorage)).

(** The storage after the settings page has saved [sampleSettings] on a new
    repository, and after the initial snapshot that follows *)
Definition savedStorage : Storage :=
  repositorySlots (saveSettingsToStorage sampleSettings
                     (mkLocal (storage freshGit) None)).

Definition signedStorage : Storage :=
  match createCommit (platform := samplePlatform) (instant 1000) sampleTree
                     "Initial bookmark snapshot" "system" savedStorage with
  | Some (_, s) => s
  | None => savedStorage
  end.

(** The storage after a reset of [twiceCommittedStorage] and one manual
    snapshot *)
Definition resetStorage : Storage :=
  storage (resetRepository 2600
             (mkGit true twiceCommittedStorage)).1.

Definition recommittedStorage : Storage :=
  match createCommit (platform := samplePlatform) (instant 2700)
                     secondSnapshot "Manual bookmark snapshot" "manual"
                     resetStorage with
  | Some (_, s) => s
  | None => resetStorage
  end.

(** * Properties *)

(** ** Strings and hashes *)

Lemma string_length_app (a b : string) :
  String.length (a +:+ b) = (String.length a + String.length b)%nat.
Proof. induction a as [|c a IH]; simpl; [reflexivity | now rewrite IH]. Qed.

Lemma string_app_inv_prefix (a1 a2 b1 b2 : string) :
  String.length a1 = String.length a2 →
  a1 +:+ b1 = a2 +:+ b2 → a1 = a2 ∧ b1 = b2.
Proof.
  revert a2. induction a1 as [|c a1 IH]; intros [|c2 a2] Hlen Heq;
    simpl in *; try discriminate.
  - auto.
  - injection Heq as -> Heq. injection Hlen as Hlen.
    destruct (IH _ Hlen Heq) as [-> ->]. auto.
Qed.

Lemma zeros_length (k : nat) : String.length (zeros k) = k.
Proof. induction k; simpl; congruence. Qed.

Lemma padStart8_length (s : string) :
  (String.length s ≤ 8)%nat → String.length (padStart8 s) = 8%nat.
Proof.
  intros H. unfold padStart8. rewrite string_length_app, zeros_length. lia.
Qed.

Lemma of_pos_length (k : nat) : ∀ (p : positive) (rest : string),
  N.pos p < 16 ^ N.of_nat k →
  (String.length (HexString.Raw.of_pos p rest) ≤ k + String.length rest)%nat.
Proof.
  induction k as [|k IH]; intros p rest Hp.
  - simpl in Hp. lia.
  - rewrite Nat2N.inj_succ, N.pow_succ_r' in Hp.
    do 4 (try destruct p as [p|p|]); cbn [HexString.Raw.of_pos];
      try (simpl; lia);
      (etransitivity; [apply IH; lia | simpl; lia]).
Qed.

Lemma toString16_length (n : N) (k : nat) :
  n < 16 ^ N.of_nat k → (0 < k)%nat → (String.length (toString16 n) ≤ k)%nat.
Proof.
  intros Hn Hk. destruct n as [|p]; simpl.
  - lia.
  - pose proof (of_pos_length k p "" Hn) as H. simpl in H. lia.
Qed.

Lemma toString16_inj (m n : N) : toString16 m = toString16 n → m = n.
Proof.
  intros H.
  assert (R : ∀ k, HexString.Raw.to_N (toString16 k) 0 = k).
  { intros [|p]; [reflexivity | apply HexString.Raw.to_N_of_pos]. }
  rewrite <- (R m), <- (R n). now rewrite H.
Qed.

Lemma toInt32_range (z : Z) : (- 2 ^ 31 ≤ toInt32 z < 2 ^ 31)%Z.
Proof.
  unfold toInt32.
  pose proof (Z.mod_pos_bound (z + 2 ^ 31) (2 ^ 32) ltac:(lia)). lia.
Qed.

Lemma toInt32_id (z : Z) : (- 2 ^ 31 ≤ z < 2 ^ 31)%Z → toInt32 z = z.
Proof.
  intros H. unfold toInt32. rewrite Z.mod_small; lia.
Qed.

Lemma band_diag (z : Z) : band z z = toInt32 z.
Proof. unfold band. apply Z.land_diag. Qed.

Lemma hashLoop_range (str : string) : ∀ hash,
  (- 2 ^ 31 ≤ hash < 2 ^ 31)%Z → (- 2 ^ 31 ≤ hashLoop str hash < 2 ^ 31)%Z.
Proof.
  induction str as [|ch rest IH]; intros hash H; simpl.
  - exact H.
  - apply IH. rewrite band_diag. apply toInt32_range.
Qed.

(** The content component of a hash always has eight characters. *)
Lemma content_component_length (input : string) :
  String.length (padStart8 (toString16 (Z.to_N (Z.abs (hashLoop input 0%Z))))) = 8%nat.
Proof.
  apply padStart8_length.
  pose proof (hashLoop_range input 0%Z ltac:(lia)) as H.
  apply toString16_length; [|lia].
  change (16 ^ N.of_nat 8) with 4294967296. lia.
Qed.

(** Hashes made at different times differ, whatever was hashed. *)
Lemma generateHash_time_inj (t1 t2 : N) (input1 input2 : string) :
  generateHash t1 input1 = generateHash t2 input2 → t1 = t2.
Proof.
  unfold generateHash. intros H.
  apply string_app_inv_prefix in H as [_ H].
  - now apply toString16_inj.
  - now rewrite !content_component_length.
Qed.

Section Properties.

Context `{platform : Platform}.

(** ** Commit store: initialisation *)

Lemma ensureRepository_present (now : N) (s : Storage) :
  is_Some (bookmark_git_repo s) → ensureRepository now s = s.
Proof. intros [r Hr]. unfold ensureRepository. now rewrite Hr. Qed.

Lemma ensureRepository_has_repo (now : N) (s : Storage) :
  is_Some (bookmark_git_repo (ensureRepository now s)).
Proof.
  unfold ensureRepository. destruct (bookmark_git_repo s) eqn:E.
  - rewrite E. eauto.
  - simpl. eauto.
Qed.

(** C8. [initialize] of a new [GitManager] creates the repository when
    the storage has none (head null, no commits, branch main pointing to
    null, the default configuration); it leaves a storage that has a
    repository exactly as it is; and calling it again, on the same
    manager or on the new manager of a later process start, changes
    nothing. *)
Theorem initialize_idempotent (now now' : N) (s : Storage) :
  let g1 := initialize now (mkGit false s) in
  (bookmark_git_repo s = None →
     storage g1 =
       mkStorage (Some (Repo.mk true now None {[ "main" := None ]}))
                 (Some ∅) (Some "main") (Some defaultConfig)
                 (changeHistory s))
  ∧ (∀ g : GitManager, is_Some (bookmark_git_repo (storage g)) →
       storage (initialize now g) = storage g)
  ∧ initialize now' g1 = g1
  ∧ initialize now' (mkGit false (storage g1)) = g1.
Proof.
  simpl. repeat split.
  - intros H. unfold initialize, ensureRepository; simpl. now rewrite H.
  - intros [[] sg] H; unfold initialize; simpl in *; [reflexivity|].
    now apply ensureRepository_present.
  - unfold initialize; simpl.
    now rewrite ensureRepository_present by apply ensureRepository_has_repo.
Qed.

(** ** Change history log *)

Lemma newestFirst_take (n : nat) (history : list HistoryEntry.t) :
  newestFirst history → newestFirst (take n history).
Proof.
  unfold newestFirst. intros H. revert n.
  induction H as [|a l Hl IH Ha]; intros [|n]; simpl; try constructor.
  - apply IH.
  - apply Forall_take. exact Ha.
Qed.

Lemma storeChangeHistory_log (now : N) (changes : list Change.t)
    (s : Storage) :
  changeHistory (storeChangeHistory now changes s)
  = Some (take 100 (HistoryEntry.mk now changes (generateCommitMessage changes)
                    :: default [] (changeHistory s))).
Proof.
  unfold storeChangeHistory. cbn [storageSet changeHistory putSlot].
  f_equal.
  destruct (100 <? length _)%nat eqn:Hlt; [reflexivity|].
  apply Nat.ltb_ge in Hlt. symmetry. now apply take_ge.
Qed.

(** C10. [storeChangeHistory] writes back the new entry followed by the
    old log, cut to its first 100 entries; the written log never has more
    than 100 entries, and it is ordered newest first whenever the old one
    was and the clock has not gone back behind its entries.  No other key
    is touched. *)
Theorem storeChangeHistory_invariant (now : N) (changes : list Change.t)
    (s : Storage) :
  let old := default [] (changeHistory s) in
  let entry := HistoryEntry.mk now changes (generateCommitMessage changes) in
  let s' := storeChangeHistory now changes s in
  changeHistory s' = Some (take 100 (entry :: old))
  ∧ (∃ log, changeHistory s' = Some log ∧ (length log ≤ 100)%nat
            ∧ head log = Some entry)
  ∧ (logInvariant old →
     Forall (fun e => HistoryEntry.timestamp e ≤ now) old →
     logInvariant (take 100 (entry :: old)))
  ∧ bookmark_git_repo s' = bookmark_git_repo s
  ∧ bookmark_commits s' = bookmark_commits s
  ∧ current_branch s' = current_branch s
  ∧ git_config s' = git_config s.
Proof.
  intros old entry s'.
  assert (E : changeHistory s' = Some (take 100 (entry :: old)))
    by apply storeChangeHistory_log.
  split; [exact E|]. split.
  { eexists. split; [exact E|]. split.
    - rewrite length_take. lia.
    - reflexivity. }
  split.
  { intros [_ Hsorted] Hnow. split.
    - rewrite length_take. lia.
    - apply newestFirst_take. constructor; [exact Hsorted|].
      exact Hnow. }
  repeat split.
Qed.

(** ** Commit store: createCommit *)

(** What a successful [createCommit] has done *)
Lemma createCommit_inv clk bookmarkData message author s h s' :
  createCommit clk bookmarkData message author s = Some (h, s') →
  ∃ repo stats commit,
    bookmark_git_repo s = Some repo
    ∧ calculateStats bookmarkData = Some stats
    ∧ h = commitHashOf clk bookmarkData message
    ∧ Commit.hash commit = h
    ∧ Commit.message commit = message
    ∧ Commit.parent commit = Repo.head repo
    ∧ Commit.stats commit = stats
    ∧ Person.timestamp (Commit.committer commit) = nowCommitter clk
    ∧ s' = mkStorage
             (Some (Repo.mk (Repo.initialized repo) (Repo.created repo) (Some h)
                      (<[getCurrentBranch s := Some h]> (Repo.branches repo))))
             (Some (<[h := commit]> (commitsOf s)))
             (current_branch s) (git_config s) (changeHistory s).
Proof.
  unfold createCommit. intros H.
  destruct (bookmark_git_repo s) as [repo|] eqn:Hrepo; [|discriminate].
  destruct (calculateStats bookmarkData) as [stats|] eqn:Hstats; [|discriminate].
  injection H as <- <-.
  eexists repo, stats, _. repeat split; reflexivity.
Qed.

(** [createCommit] succeeds whenever the repository record is there and
    the snapshot can be counted. *)
Lemma createCommit_succeeds clk bookmarkData message author s :
  is_Some (bookmark_git_repo s) →
  is_Some (calculateStats bookmarkData) →
  ∃ s', createCommit clk bookmarkData message author s
        = Some (commitHashOf clk bookmarkData message, s').
Proof.
  intros [repo Hrepo] [stats Hstats]. unfold createCommit.
  rewrite Hrepo, Hstats. eexists. reflexivity.
Qed.

Lemma createCommit_headIs clk bookmarkData message author s h s' :
  createCommit clk bookmarkData message author s = Some (h, s') →
  headIs s' h.
Proof.
  intros H. apply createCommit_inv in H
    as (repo & stats & commit & Hrepo & _ & _ & _ & _ & _ & _ & _ & ->).
  eexists. split; [reflexivity|]. cbn. split; [reflexivity|].
  unfold getCurrentBranch, commitsOf; cbn.
  split; [apply lookup_insert_eq|]. rewrite lookup_insert_eq. eauto.
Qed.



(** C5. Two [createCommit] calls whose [generateHash] reads different
    clock values return different hashes, whatever the snapshots and the
    messages; when the second call follows the first, the first commit is
    still in the table, as the first call stored it. *)
Theorem createCommit_distinct_hashes
    (clk1 clk2 : CommitClock) (data1 data2 : JValue)
    (message1 message2 author1 author2 : string)
    (s sa : Storage) (h1 h2 : string) (s1 s2 : Storage) :
  nowHash clk1 ≠ nowHash clk2 →
  createCommit clk1 data1 message1 author1 s = Some (h1, s1) →
  createCommit clk2 data2 message2 author2 sa = Some (h2, s2) →
  h1 ≠ h2
  ∧ (sa = s1 →
     is_Some (commitsOf s1 !! h1)
     ∧ commitsOf s2 !! h1 = commitsOf s1 !! h1).
Proof.
  intros Hclk H1 H2.
  pose proof (createCommit_headIs _ _ _ _ _ _ _ H1) as (? & _ & _ & _ & Hin).
  apply createCommit_inv in H1
    as (repo1 & stats1 & c1 & _ & _ & Hh1 & _ & _ & _ & _ & _ & Hs1).
  apply createCommit_inv in H2
    as (repo2 & stats2 & c2 & _ & _ & Hh2 & _ & _ & _ & _ & _ & Hs2).
  assert (Hne : h1 ≠ h2).
  { rewrite Hh1, Hh2. unfold commitHashOf. intros Heq.
    apply generateHash_time_inj in Heq. contradiction. }
  split; [exact Hne|]. intros ->. split; [exact Hin|].
  rewrite Hs2. unfold commitsOf at 1; cbn.
  rewrite lookup_insert_ne; [reflexivity | congruence].
Qed.

(** ** Stat engine *)

(** Induction on bookmark trees: the elements of an array and the
    [children] of an object come first. *)
Lemma JValue_tree_ind (P : JValue → Prop)
    (Hnull : P JNull) (Hbool : ∀ b, P (JBool b)) (Hnum : ∀ z, P (JNum z))
    (Hstr : ∀ s, P (JStr s))
    (Harr : ∀ items, Forall P items → P (JArr items))
    (Hobj : ∀ url children others,
        (∀ ch, children = Some ch → P ch) → P (JObj url children others)) :
  ∀ v, P v.
Proof.
  fix IH 1. intros [ | b | z | s | items | url children others].
  - exact Hnull.
  - apply Hbool.
  - apply Hnum.
  - apply Hstr.
  - apply Harr. induction items as [|x items IHitems]; constructor.
    + apply IH.
    + exact IHitems.
  - apply Hobj. destruct children as [ch|]; intros ch' Heq.
    + injection Heq as <-. apply IH.
    + discriminate.
Qed.

Lemma countIf_app {A} (p : A → bool) (l1 l2 : list A) :
  countIf p (l1 ++ l2) = countIf p l1 + countIf p l2.
Proof. unfold countIf. rewrite filter_app, length_app. lia. Qed.

Lemma countIf_cons {A} (p : A → bool) (x : A) (l : list A) :
  countIf p (x :: l) = (if p x then 1 else 0) + countIf p l.
Proof.
  unfold countIf. rewrite filter_cons.
  destruct (p x); simpl; [|reflexivity].
  destruct (decide (true = true)); [simpl length; lia | congruence].
Qed.

Lemma countIf_split {A} (p : A → bool) (l : list A) :
  countIf p l + countIf (fun x => negb (p x)) l = N.of_nat (length l).
Proof.
  induction l as [|x l IH]; [reflexivity|].
  rewrite !countIf_cons. simpl length. rewrite Nat2N.inj_succ.
  destruct (p x); cbn [negb]; cbv iota; lia.
Qed.

Lemma counted_nil (c : Counters) : counted c [] = c.
Proof.
  destruct c as [b f]. unfold counted, countIf; simpl.
  now rewrite !N.add_0_r.
Qed.

Lemma counted_app (c : Counters) (l1 l2 : list JValue) :
  counted c (l1 ++ l2) = counted (counted c l1) l2.
Proof.
  unfold counted; simpl. rewrite !countIf_app. f_equal; lia.
Qed.

Lemma classify_counted (node : JValue) (c : Counters) :
  isNull node = false → classify node c = Some (counted c [node]).
Proof.
  intros H. unfold counted. rewrite !countIf_cons.
  change (countIf _ []) with 0. rewrite !N.add_0_r.
  destruct node as [ | b | z | s | items | url children others];
    try discriminate; simpl; try (now rewrite N.add_0_r).
  destruct (truthy_prop url); simpl; now rewrite N.add_0_r.
Qed.

Lemma visited_not_array (v : JValue) : isArray v = false → visited v = [].
Proof. destruct v; simpl; intros; congruence. Qed.

Lemma falsy_not_array (v : JValue) : truthy v = false → isArray v = false.
Proof. destruct v; simpl; intros; congruence. Qed.

(** On a tree in which the walk meets no [null], [countItems] does not
    throw and adds one to a counter for each node the walk reaches. *)
Lemma countItems_visited (nodes : JValue) :
  ∀ c, Forall (fun v => isNull v = false) (visited nodes) →
       countItems nodes c = Some (counted c (visited nodes)).
Proof.
  enough (H : (∀ c, Forall (fun v => isNull v = false) (visited nodes) →
                    countItems nodes c = Some (counted c (visited nodes)))
              ∧ (∀ ch, childrenOf nodes = Some ch →
                   ∀ c, Forall (fun v => isNull v = false) (visited ch) →
                        countItems ch c = Some (counted c (visited ch))))
    by exact (proj1 H).
  induction nodes as [ | b | z | s | items IH | url children others IH]
    using JValue_tree_ind;
    try (split; [intros c _; simpl; now rewrite counted_nil
                | simpl; intros; discriminate]).
  - split; [|simpl; intros; discriminate].
    simpl. induction IH as [|node rest [_ Hnode] _ IHrest]; intros c Hv.
    + simpl. now rewrite counted_nil.
    + cbn [flat_map] in Hv. rewrite <- app_comm_cons in Hv.
      apply Forall_cons in Hv as [Hnn Hv]. apply Forall_app in Hv as [Hch Hrest].
      rewrite (classify_counted _ _ Hnn).
      cbn [flat_map]. rewrite <- app_comm_cons.
      change (node :: ?l ++ ?r)%list with ([node] ++ l ++ r)%list.
      rewrite !counted_app.
      destruct node as [ | b | z | s | its | u [ch|] o];
        try (rewrite counted_nil; apply IHrest; exact Hrest).
      destruct (truthy ch) eqn:Htr.
      * rewrite (Hnode ch eq_refl _ Hch). apply IHrest. exact Hrest.
      * rewrite (visited_not_array ch (falsy_not_array _ Htr)), counted_nil.
        apply IHrest. exact Hrest.
  - split; [intros c _; simpl; now rewrite counted_nil|].
    simpl. intros ch ->. exact (proj1 (IH ch eq_refl)).
Qed.

(** C6. The stat engine gives zero for a snapshot that is not an array
    and, on a tree in which the walk meets no [null], counts every node
    it reaches exactly once: as a bookmark when its [url] is truthy, as a
    folder otherwise, with or without [children].  The walk reaches the
    elements of an array and, below a node, the elements of its
    [children] when that is an array; any other [children] adds
    nothing. *)
Theorem calculateStats_counts (bookmarkData : JValue) :
  (isArray bookmarkData = false →
     calculateStats bookmarkData = Some (Stats.mk 0 0 0))
  ∧ (Forall (fun v => isNull v = false) (visited bookmarkData) →
     calculateStats bookmarkData =
       Some (Stats.mk (countIf hasUrl (visited bookmarkData))
                      (countIf (fun v => negb (hasUrl v)) (visited bookmarkData))
                      (N.of_nat (length (visited bookmarkData)))))
  ∧ (∀ node rest,
       visited (JArr (node :: rest)) =
         node :: default [] (visited <$> childrenOf node) ++ visited (JArr rest))
  ∧ (∀ v, isArray v = false → visited v = []).
Proof.
  split; [|split; [|split]].
  - intros H. unfold calculateStats. now rewrite H.
  - intros H. unfold calculateStats.
    destruct (isArray bookmarkData) eqn:Harr.
    + rewrite (countItems_visited _ _ H).
      cbn [counted cntBookmarks cntFolders].
      now rewrite !N.add_0_l, countIf_split.
    + rewrite (visited_not_array _ Harr). reflexivity.
  - intros node rest. simpl.
    destruct node as [ | | | | | u [ch|] o]; reflexivity.
  - apply visited_not_array.
Qed.

(** ** Commit store: history *)

Lemma toISOString_valid (t : N) :
  t ≤ maxTimeValue → toISOString t = Some (isoFormat t).
Proof.
  intros H. unfold toISOString.
  destruct (N.leb_spec t maxTimeValue); [reflexivity | lia].
Qed.





(** ** Export and import *)

Lemma str_or_main (o : option string) :
  str_or (Some (str_or o "main")) "main" = str_or o "main".
Proof.
  destruct o as [b|]; simpl; [|reflexivity].
  destruct (String.eqb b "") eqn:E; simpl; [reflexivity | now rewrite E].
Qed.

(** The queries read the repository record, the commit table and the
    branch name only. *)
Lemma queries_agree (s1 s2 : Storage) :
  bookmark_git_repo s1 = bookmark_git_repo s2 →
  commitsOf s1 = commitsOf s2 →
  getCurrentBranch s1 = getCurrentBranch s2 →
  getRepositoryStats s1 = getRepositoryStats s2
  ∧ ∀ limit, getCommitHistory limit s1
             = getCommitHistory limit s2.
Proof.
  intros Hr Hc Hb. unfold getRepositoryStats, getCommitHistory.
  rewrite Hr, Hc, Hb. auto.
Qed.

Lemma reachable_has_repo (s : Storage) :
  Reachable s → is_Some (bookmark_git_repo s).
Proof.
  induction 1 as [now s0 | clk d m a s h s' _ _ H | now ch s _ IH
                  | now flag s _ _ | now data tr _ _].
  - simpl. apply ensureRepository_has_repo.
  - apply createCommit_inv in H
      as (repo & stats & commit & _ & _ & _ & _ & _ & _ & _ & _ & ->).
    simpl. eauto.
  - exact IH.
  - simpl. eauto.
  - destruct data as [d|]; simpl.
    + destruct (Bundle.repository d); simpl; eauto.
    + eauto.
Qed.

(** What [importRepository] leaves when it is given a bundle *)
Lemma importRepository_bundle (now : N) (d : Bundle.t) (tr : Tracker) :
  let s := storage (gitManager tr) in
  let r := importRepository now (Some d) tr in
  r.2 = Success
  ∧ storage (gitManager r.1) =
      mkStorage (putSlot (Bundle.repository d) (Some (newRepository now)))
                (putSlot (Bundle.commits d) (Some ∅))
                (Some (str_or (Bundle.currentBranch d) "main"))
                (Some (default (Config.mk None) (Bundle.config d)))
                (changeHistory s).
Proof. split; reflexivity. Qed.

(** C9. In every reachable state, exporting the repository and importing
    the bundle succeeds and gives a state in which [getRepositoryStats]
    returns the same record and [getCommitHistory] the same sequence, for
    every limit. *)
Theorem export_import_roundtrip (nowExport nowImport : N) (tr : Tracker) :
  Reachable (storage (gitManager tr)) →
  let s := storage (gitManager tr) in
  let bundle := exportRepository nowExport s in
  let r := importRepository nowImport (Some bundle) tr in
  r.2 = Success
  ∧ getRepositoryStats (storage (gitManager r.1)) = getRepositoryStats s
  ∧ ∀ limit, getCommitHistory limit (storage (gitManager r.1))
             = getCommitHistory limit s.
Proof.
  intros Hreach s bundle r.
  destruct (reachable_has_repo _ Hreach) as [repo Hrepo]. fold s in Hrepo.
  destruct (importRepository_bundle nowImport bundle tr) as [Hok Hs].
  fold s in Hs. fold r in Hok, Hs. split; [exact Hok|].
  apply queries_agree; rewrite Hs; unfold bundle, exportRepository; cbn.
  - now rewrite Hrepo.
  - unfold commitsOf; cbn. now destruct (bookmark_commits s).
  - unfold getCurrentBranch; cbn. apply str_or_main.
Qed.

(** ** Import validation *)

Lemma handleFileImport_armedValid (file : FileContent)
    (oc : OptionsController) :
  armedValid oc → armedValid (handleFileImport file oc).
Proof.
  intros Hoc. destruct file as [|data]; simpl; [exact Hoc|].
  destruct (validateBackupData data) eqn:Hv; [|exact Hoc].
  intros d Hd. simpl in Hd. now injection Hd as <-.
Qed.

(** C1. A bundle that fails [validateBackupData], in particular one
    without [commits], is rejected by [handleFileImport] of the options
    page with the toast "Invalid backup file format": no import is armed,
    so that confirming the modal sends nothing and the background page,
    with its repository, stays as it was.  Every import that
    [handleFileImport] arms has passed the validation. *)
Theorem invalid_bundle_rejected_before_import (now : N)
    (data : option Bundle.t) (oc : OptionsController) (tr : Tracker) :
  validateBackupData data = false →
  handleFileImport (Parsed data) oc =
    mkOptions (Some ("Invalid backup file format", "error")) (pendingAction oc)
  ∧ (pendingAction oc = None →
     executeAction now (mkBrowser (handleFileImport (Parsed data) oc) tr)
     = mkBrowser (handleFileImport (Parsed data) oc) tr)
  ∧ (∀ file, armedValid oc → armedValid (handleFileImport file oc))
  ∧ (∀ d, Bundle.commits d = None → validateBackupData (Some d) = false).
Proof.
  intros Hv. split; [|split; [|split]].
  - simpl. now rewrite Hv.
  - intros Hp. simpl. rewrite Hv. unfold executeAction. simpl.
    now rewrite Hp.
  - intros file. apply handleFileImport_armedValid.
  - intros d Hc. simpl. rewrite Hc.
    now rewrite andb_false_r.
Qed.

(** ** Change coalescer *)



(** *** The event loop runs dry *)

Lemma turns_cons (x : N * Callback) (l : list (N * Callback)) :
  turns (x :: l) = (turnsOf x.2 + turns l)%nat.
Proof. reflexivity. Qed.

Lemma popEarliest_min (entries : list (N * Callback)) x rest :
  popEarliest entries = Some (x, rest) →
  Forall (fun y => x.1 ≤ y.1) entries.
Proof.
  revert x rest. induction entries as [|e entries IH]; intros x rest H;
    [constructor|].
  cbn [popEarliest] in H.
  destruct (popEarliest entries) as [[y rest']|] eqn:Hp.
  - specialize (IH y rest' eq_refl).
    destruct (N.ltb_spec y.1 e.1) as [Hlt|Hge]; injection H as <- <-.
    + constructor; [lia | exact IH].
    + constructor; [lia|].
      eapply Forall_impl; [exact IH|]. simpl. intros z Hz. lia.
  - injection H as <- <-. destruct entries as [|e' entries].
    + constructor; [lia | constructor].
    + cbn [popEarliest] in Hp.
      destruct (popEarliest entries) as [[z r]|];
        [destruct (z.1 <? e'.1)|]; discriminate.
Qed.

Lemma popEarliest_Some (entries : list (N * Callback)) x rest :
  popEarliest entries = Some (x, rest) →
  turns entries = (turnsOf x.2 + turns rest)%nat.
Proof.
  revert x rest. induction entries as [|e entries IH]; intros x rest H;
    [discriminate|].
  cbn [popEarliest] in H.
  destruct (popEarliest entries) as [[y rest']|] eqn:Hp.
  - specialize (IH y rest' eq_refl).
    destruct (y.1 <? e.1); injection H as <- <-.
    + rewrite (turns_cons e entries), (turns_cons e rest'). lia.
    + apply turns_cons.
  - injection H as <- <-. destruct entries as [|e' entries].
    + reflexivity.
    + cbn [popEarliest] in Hp.
      destruct (popEarliest entries) as [[z r]|];
        [destruct (z.1 <? e'.1)|]; discriminate.
Qed.

Lemma popEarliest_None (entries : list (N * Callback)) :
  popEarliest entries = None → entries = [].
Proof.
  destruct entries as [|e entries]; [reflexivity|]. cbn [popEarliest].
  destruct (popEarliest entries) as [[y rest']|]; [|discriminate].
  destruct (y.1 <? e.1); discriminate.
Qed.

Lemma turns_app (l1 l2 : list (N * Callback)) :
  turns (l1 ++ l2) = (turns l1 + turns l2)%nat.
Proof. unfold turns. now rewrite map_app, list_sum_app. Qed.

Lemma turns_suspend (due : N) (cb : Callback) (w : World) :
  turns (agenda (suspend due cb w)) = (turns (agenda w) + turnsOf cb)%nat.
Proof.
  unfold suspend. cbn [agenda]. rewrite turns_app.
  unfold turns at 2. simpl. lia.
Qed.

(** A callback leaves the entries of the agenda as they are and adds at
    most the resumption of its handler, which has fewer turns left. *)
Lemma runCallback_turns (now : N) (cb : Callback) (w : World) :
  (turns (agenda (runCallback now cb w)) < turns (agenda w) + turnsOf cb)%nat.
Proof.
  destruct cb as [id|[tree|]|tree message hashed|items|changes|items];
    cbn [runCallback turnsOf].
  - destruct (pendingChanges (tracker w)); [lia|].
    rewrite turns_suspend. cbn [turnsOf]. lia.
  - rewrite turns_suspend. cbn [turnsOf]. lia.
  - lia.
  - destruct (createCommit _ _ _ _ _) as [[h s]|]; [|lia].
    rewrite turns_suspend. cbn [turnsOf]. lia.
  - rewrite turns_suspend. cbn [turnsOf write agenda]. lia.
  - rewrite turns_suspend. cbn [turnsOf]. lia.
  - cbn [clearBuffer write agenda]. lia.
Qed.

(** A turn either changes nothing, and then no later turn does, or uses
    up one of the turns that the agenda can cause. *)
Lemma loopStep_turns (bound : option N) (w : World) :
  (loopStep bound w = w
   ∧ Forall (fun y => ¬ admits bound y.1) (agenda w))
  ∨ (turns (agenda (loopStep bound w)) < turns (agenda w))%nat.
Proof.
  unfold loopStep.
  destruct (popEarliest (agenda w)) as [[[t cb] rest]|] eqn:Hp.
  - pose proof (popEarliest_Some _ _ _ Hp) as Ht.
    pose proof (popEarliest_min _ _ _ Hp) as Hmin.
    destruct (match bound with Some now => t <=? now | None => true end)
      eqn:Hb.
    + right. rewrite Ht. cbn [snd].
      pose proof (runCallback_turns t cb
                    (mkWorld (tracker w) rest (nextTimer w)
                             (pendingArray w) (formerArrays w))) as H.
      cbn [agenda] in H. lia.
    + left. split; [reflexivity|].
      destruct bound as [now|]; [|discriminate].
      apply N.leb_gt in Hb.
      eapply Forall_impl; [exact Hmin|]. simpl. intros y Hy. lia.
  - left. apply popEarliest_None in Hp. rewrite Hp. split; [reflexivity|].
    constructor.
Qed.

Lemma turnsOf_pos (cb : Callback) : (0 < turnsOf cb ≤ 6)%nat.
Proof. destruct cb; cbn; lia. Qed.

Lemma loop_runs_dry (bound : option N) (n : nat) :
  ∀ w, (turns (agenda w) ≤ n)%nat →
       Forall (fun y => ¬ admits bound y.1)
    (agenda (Nat.iter n (loopStep bound) w)).
Proof.
  induction n as [|n IH]; intros w Hn.
  - simpl. destruct (agenda w) as [|[t cb] l]; [constructor|].
    rewrite turns_cons in Hn. pose proof (turnsOf_pos cb). cbn [snd] in Hn.
    lia.
  - rewrite Nat.iter_succ_r.
    destruct (loopStep_turns bound w) as [[Hid Hall]|Hlt].
    + rewrite Hid. clear IH Hn.
      induction n as [|n IHn]; [exact Hall|].
      rewrite Nat.iter_succ_r, Hid. exact IHn.
    + apply IH. lia.
Qed.

Lemma turns_le_length (entries : list (N * Callback)) :
  (turns entries ≤ 6 * length entries)%nat.
Proof.
  induction entries as [|e l IH]; [unfold turns; simpl; lia|].
  rewrite turns_cons. simpl length.
  pose proof (turnsOf_pos e.2). lia.
Qed.

(** After [advance] nothing that was ready is left, and after [settle]
    nothing at all. *)
Lemma advance_leaves_later (now : N) (w : World) :
  Forall (fun y => now < y.1)
         (agenda (advance now w)).
Proof.
  eapply Forall_impl.
  - apply (loop_runs_dry (Some now)). apply turns_le_length.
  - simpl. intros y Hy. lia.
Qed.

Lemma settle_leaves_nothing (w : World) :
  agenda (settle w) = [].
Proof.
  pose proof (loop_runs_dry None _ w (turns_le_length (agenda w))) as H.
  fold (settle w) in H.
  destruct (agenda (settle w)) as [|y l];
    [reflexivity|].
  inversion H; subst. simpl in *. tauto.
Qed.

(** *** One burst *)





Lemma commitChanges_has_repo due changes s :
  is_Some (bookmark_git_repo s) →
  is_Some (bookmark_git_repo (commitChanges due changes s)).
Proof.
  intros Hs. unfold commitChanges.
  destruct (getTree due) as [tree|]; [|exact Hs].
  destruct (createCommit _ _ _ _ _) as [[h s1]|] eqn:Hc; [|exact Hs].
  apply createCommit_inv in Hc
    as (repo & stats & commit & _ & _ & _ & _ & _ & _ & _ & _ & ->).
  simpl. eauto.
Qed.

(** [commitChanges] is the run of [processBufferedChanges] in which no
    other handler runs while it awaits. *)
Lemma afterGetTree_commitChanges (due : N) (tr : Tracker) :
  storage (gitManager
             (afterGetTree (getTree due) (clockOfCommit (due + treeLatency))
                           (loggedAt (due + treeLatency)) tr))
  = commitChanges due (pendingChanges tr) (storage (gitManager tr)).
Proof.
  unfold afterGetTree, commitChanges.
  destruct (getTree due) as [tree|]; [|reflexivity].
  now destruct (createCommit _ _ _ _ _) as [[h s1]|].
Qed.
















Lemma commitBursts_has_repo delay (bs : list Burst) :
  ∀ s, is_Some (bookmark_git_repo s) →
       is_Some (bookmark_git_repo
                  (fold_left (commitBurst delay) bs s)).
Proof.
  induction bs as [|b bs IH]; intros s Hs; [exact Hs|].
  cbn [fold_left]. apply IH. now apply commitChanges_has_repo.
Qed.



(** C2. When [getTree] or [createCommit] fails while the buffered
    changes are processed, the tracker is left exactly as it was: the
    buffer is kept, the storage untouched.  The state machine is not
    wedged: the next event is appended to the kept buffer and schedules
    a new timeout, and a later run whose [createCommit] succeeds commits
    with the message of everything buffered, logs it and clears the
    buffer. *)
Theorem failed_commit_keeps_buffer (tree : option JValue)
    (clk : CommitClock) (nowHistory : N) (tr : Tracker) :
  (∀ bookmarkTree, tree = Some bookmarkTree →
     createCommit clk bookmarkTree
       (generateCommitMessage (pendingChanges tr)) "user"
       (storage (gitManager tr)) = None) →
  afterGetTree tree clk nowHistory tr = tr
  ∧ processBufferedChanges tree clk nowHistory tr = tr
  ∧ (∀ (w : World) (now : N) (e : BookmarkEvent),
       tracker w = tr →
       let w' := handleBookmarkChange now e w in
       pendingChanges (tracker w') = pendingChanges tr ++ [Change.mk now e]
       ∧ changeBuffer (tracker w') = Some (nextTimer w)
       ∧ (now + bufferDelay tr, TimerFired (nextTimer w)) ∈ agenda w'
       ∧ storage (gitManager (tracker w')) = storage (gitManager tr))
  ∧ (∀ (tr' : Tracker) (clk' : CommitClock) (nowHistory' : N)
       (bookmarkTree : JValue) (h : string) (s1 : Storage),
       pendingChanges tr' ≠ [] →
       createCommit clk' bookmarkTree
         (generateCommitMessage (pendingChanges tr')) "user"
         (storage (gitManager tr')) = Some (h, s1) →
       let tr'' := processBufferedChanges (Some bookmarkTree)
                     clk' nowHistory' tr' in
       pendingChanges tr'' = []
       ∧ changeBuffer tr'' = None
       ∧ storage (gitManager tr'')
         = storeChangeHistory nowHistory' (pendingChanges tr') s1).
Proof.
  intros Hfail.
  assert (Hafter : afterGetTree tree clk nowHistory tr = tr).
  { unfold afterGetTree. destruct tree as [bookmarkTree|]; [|reflexivity].
    now rewrite (Hfail bookmarkTree eq_refl). }
  split; [exact Hafter|]. split; [|split].
  - unfold processBufferedChanges.
    destruct (pendingChanges tr) eqn:Hp; [reflexivity | exact Hafter].
  - intros w now e <-. cbn. repeat split.
    apply elem_of_app. right. apply list_elem_of_singleton. reflexivity.
  - intros tr' clk' nowHistory' bookmarkTree h s1 Hne Hc.
    unfold processBufferedChanges, afterGetTree.
    destruct (pendingChanges tr') as [|c l] eqn:Hp; [congruence|].
    rewrite Hc. repeat split.
Qed.

End Properties.

(** * Further properties of the commit store and of the tracker *)

Section MoreProperties.

Context `{platform : Platform}.

(** The repository record and the commit that a successful
    [createCommit] leaves *)
Lemma createCommit_stored clk bookmarkData message author s h s' :
  createCommit clk bookmarkData message author s = Some (h, s') →
  ∃ repo repo' commit,
    bookmark_git_repo s = Some repo
    ∧ bookmark_git_repo s' = Some repo'
    ∧ Repo.head repo' = Some h
    ∧ Repo.created repo' = Repo.created repo
    ∧ Repo.branches repo'
      = <[getCurrentBranch s := Some h]> (Repo.branches repo)
    ∧ commitsOf s' = <[h := commit]> (commitsOf s)
    ∧ current_branch s' = current_branch s
    ∧ h = commitHashOf clk bookmarkData message
    ∧ Commit.hash commit = h
    ∧ Commit.message commit = message
    ∧ Commit.parent commit = Repo.head repo
    ∧ Commit.data commit = bookmarkData
    ∧ calculateStats bookmarkData = Some (Commit.stats commit)
    ∧ Person.timestamp (Commit.committer commit) = nowCommitter clk
    ∧ Person.name (Commit.author commit) = authorName (configOf s).
Proof.
  unfold createCommit. intros H.
  destruct (bookmark_git_repo s) as [repo|] eqn:Hrepo; [|discriminate].
  destruct (calculateStats bookmarkData) as [stats|] eqn:Hstats;
    [|discriminate].
  injection H as <- <-.
  eexists repo, _, _. repeat split; reflexivity.
Qed.

(** ** Diff engine *)

Lemma maxZeroSub_spec (a b : N) :
  a + maxZeroSub b a = b + maxZeroSub a b
  ∧ (maxZeroSub a b = 0 ∨ maxZeroSub b a = 0).
Proof. unfold maxZeroSub. lia. Qed.

Lemma maxZeroSub_diag (a : N) : maxZeroSub a a = 0.
Proof. unfold maxZeroSub. lia. Qed.

Lemma calculateDiff_None (data1 data2 : JValue) :
  calculateDiff data1 data2 = None
  ↔ calculateStats data1 = None ∨ calculateStats data2 = None.
Proof.
  unfold calculateDiff.
  destruct (calculateStats data1), (calculateStats data2);
    split; intros H; try discriminate; try tauto;
    destruct H; discriminate.
Qed.

Lemma calculateDiff_is_Some (data1 data2 : JValue) :
  is_Some (calculateStats data1) → is_Some (calculateStats data2) →
  is_Some (calculateDiff data1 data2).
Proof. unfold calculateDiff. intros [? ->] [? ->]. eauto. Qed.

(** X1. [calculateDiff] throws exactly when one of the two snapshots
    cannot be counted.  Otherwise [changed] is 0 for bookmarks and for
    folders, [added] and [removed] are never both positive, they
    account for the difference of the two counts, exchanging the
    snapshots exchanges them, and a snapshot does not differ from
    itself. *)
Theorem calculateDiff_delta (data1 data2 : JValue) :
  (calculateDiff data1 data2 = None
   ↔ calculateStats data1 = None ∨ calculateStats data2 = None)
  ∧ (∀ stats1 stats2,
       calculateStats data1 = Some stats1 →
       calculateStats data2 = Some stats2 →
       ∃ d,
         calculateDiff data1 data2 = Some d
         ∧ calculateDiff data2 data1 = Some (mirror d)
         ∧ DiffCount.changed (Diff.bookmarks d) = 0
         ∧ DiffCount.changed (Diff.folders d) = 0
         ∧ Stats.totalBookmarks stats1 + DiffCount.added (Diff.bookmarks d)
           = Stats.totalBookmarks stats2 + DiffCount.removed (Diff.bookmarks d)
         ∧ Stats.totalFolders stats1 + DiffCount.added (Diff.folders d)
           = Stats.totalFolders stats2 + DiffCount.removed (Diff.folders d)
         ∧ (DiffCount.added (Diff.bookmarks d) = 0
            ∨ DiffCount.removed (Diff.bookmarks d) = 0)
         ∧ (DiffCount.added (Diff.folders d) = 0
            ∨ DiffCount.removed (Diff.folders d) = 0))
  ∧ (is_Some (calculateStats data1) →
     calculateDiff data1 data1 = Some zeroDiff).
Proof.
  split; [apply calculateDiff_None|]. unfold calculateDiff. split.
  - intros stats1 stats2 -> ->. eexists. split; [reflexivity|].
    split; [reflexivity|]. cbn.
    pose proof (maxZeroSub_spec (Stats.totalBookmarks stats1)
                                (Stats.totalBookmarks stats2)) as [Hb Hb'].
    pose proof (maxZeroSub_spec (Stats.totalFolders stats1)
                                (Stats.totalFolders stats2)) as [Hf Hf'].
    repeat split; try assumption; tauto.
  - intros [stats ->]. unfold zeroDiff. now rewrite !maxZeroSub_diag.
Qed.

(** ** Reading commits back *)

Lemma getCommitData_insert (h : string) (commit : Commit.t)
    (s s' : Storage) :
  commitsOf s' = <[h := commit]> (commitsOf s) →
  getCommitData h s' = Commit.data commit
  ∧ ∀ k, k ≠ h → getCommitData k s' = getCommitData k s.
Proof.
  intros Hc. unfold getCommitData. rewrite Hc. split.
  - now rewrite lookup_insert_eq.
  - intros k Hk. now rewrite lookup_insert_ne by congruence.
Qed.

(** X2. The snapshot given to a successful [createCommit] is what
    [getCommitData] returns for the new hash, and the data of every
    other hash is as before. *)
Theorem getCommitData_createCommit clk bookmarkData message author s h s' :
  createCommit clk bookmarkData message author s = Some (h, s') →
  getCommitData h s' = bookmarkData
  ∧ ∀ k, k ≠ h → getCommitData k s' = getCommitData k s.
Proof.
  intros H.
  apply createCommit_stored in H
    as (repo & repo' & commit & _ & _ & _ & _ & _ & Hc & _ & _ & _ & _ & _
        & Hdata & _).
  rewrite <- Hdata. now apply getCommitData_insert.
Qed.

Lemma getCommitData_missing (k : string) (s : Storage) :
  commitsOf s !! k = None → getCommitData k s = JNull.
Proof. unfold getCommitData. now intros ->. Qed.

(** X3. [getCommitDiff] answers null exactly when the data of one of
    the two hashes is falsy (in particular when the table lacks the
    hash) or cannot be counted; otherwise it is the diff of the two
    snapshots. *)
Theorem getCommitDiff_null (h1 h2 : string) (s : Storage) :
  (getCommitDiff h1 h2 s = None
   ↔ truthy (getCommitData h1 s) = false
     ∨ truthy (getCommitData h2 s) = false
     ∨ calculateStats (getCommitData h1 s) = None
     ∨ calculateStats (getCommitData h2 s) = None)
  ∧ (commitsOf s !! h1 = None ∨ commitsOf s !! h2 = None →
     getCommitDiff h1 h2 s = None)
  ∧ (∀ d, getCommitDiff h1 h2 s = Some d →
          calculateDiff (getCommitData h1 s) (getCommitData h2 s) = Some d).
Proof.
  assert (Hiff : getCommitDiff h1 h2 s = None
   ↔ truthy (getCommitData h1 s) = false
     ∨ truthy (getCommitData h2 s) = false
     ∨ calculateStats (getCommitData h1 s) = None
     ∨ calculateStats (getCommitData h2 s) = None).
  { unfold getCommitDiff.
    pose proof (calculateDiff_None (getCommitData h1 s)
                                   (getCommitData h2 s)) as Hd.
    destruct (truthy (getCommitData h1 s)),
             (truthy (getCommitData h2 s)); cbn; try tauto.
    rewrite Hd. split; [tauto|]. intros [H|[H|H]]; try discriminate; tauto. }
  split; [exact Hiff|]. split.
  - intros [H|H]; apply Hiff; apply getCommitData_missing in H;
      rewrite H; cbn; tauto.
  - unfold getCommitDiff. intros d.
    destruct (negb _ || negb _); [discriminate | auto].
Qed.

(** X4. The diff of two commits is the diff of their snapshots: after
    two successful [createCommit] calls made at different readings of
    the clock in [generateHash], with truthy snapshots, [getCommitDiff]
    of the two returned hashes is [calculateDiff] of the two
    snapshots, which does not throw. *)
Theorem getCommitDiff_of_commits
    (clk1 clk2 : CommitClock) (data1 data2 : JValue)
    (message1 message2 author1 author2 : string)
    (s s1 s2 : Storage) (h1 h2 : string) :
  nowHash clk1 ≠ nowHash clk2 →
  truthy data1 = true → truthy data2 = true →
  createCommit clk1 data1 message1 author1 s = Some (h1, s1) →
  createCommit clk2 data2 message2 author2 s1 = Some (h2, s2) →
  getCommitDiff h1 h2 s2 = calculateDiff data1 data2
  ∧ is_Some (calculateDiff data1 data2).
Proof.
  intros Hclk Ht1 Ht2 H1 H2.
  assert (Hne : h1 ≠ h2).
  { apply createCommit_inv in H1
      as (? & ? & ? & _ & _ & -> & _).
    apply createCommit_inv in H2
      as (? & ? & ? & _ & _ & -> & _).
    unfold commitHashOf. intros Heq.
    apply generateHash_time_inj in Heq. contradiction. }
  apply createCommit_stored in H1
    as (? & ? & c1 & _ & _ & _ & _ & _ & Hc1 & _ & _ & _ & _ & _
        & Hdata1 & Hs1 & _).
  apply createCommit_stored in H2
    as (? & ? & c2 & _ & _ & _ & _ & _ & Hc2 & _ & _ & _ & _ & _
        & Hdata2 & Hs2 & _).
  destruct (getCommitData_insert _ _ _ _ Hc1) as [Hd1 _].
  destruct (getCommitData_insert _ _ _ _ Hc2) as [Hd2 Hother].
  unfold getCommitDiff.
  rewrite Hd2, (Hother h1 Hne), Hd1, Hdata1, Hdata2, Ht1, Ht2. cbn.
  split; [reflexivity|]. apply calculateDiff_is_Some; eauto.
Qed.

(** ** Hashes *)

Lemma of_pos_hex (k : nat) : ∀ (p : positive) (rest : string),
  N.pos p < 16 ^ N.of_nat k →
  allChars hexDigit rest = true →
  allChars hexDigit (HexString.Raw.of_pos p rest) = true
  ∧ (String.length rest < String.length (HexString.Raw.of_pos p rest))%nat.
Proof.
  induction k as [|k IH]; intros p rest Hp Hrest.
  - simpl in Hp. lia.
  - rewrite Nat2N.inj_succ, N.pow_succ_r' in Hp.
    do 4 (try destruct p as [p|p|]); cbn [HexString.Raw.of_pos];
      try (split; [cbn; exact Hrest | simpl; lia]);
      match goal with
      | |- context [HexString.Raw.of_pos ?q (String ?d rest)] =>
          destruct (IH q (String d rest)) as [Hh Hl];
          [lia | cbn; exact Hrest | split; [exact Hh | simpl in Hl; lia]]
      end.
Qed.

Lemma toString16_hex (n : N) :
  allChars hexDigit (toString16 n) = true
  ∧ (0 < String.length (toString16 n))%nat.
Proof.
  destruct n as [|p]; [split; [reflexivity | simpl; lia]|].
  destruct (of_pos_hex (Pos.to_nat p) p "") as [Hh Hl].
  - rewrite positive_nat_N. apply N.pow_gt_lin_r. lia.
  - reflexivity.
  - split; [exact Hh | simpl in *; lia].
Qed.

Lemma allChars_app (p : ascii → bool) (a b : string) :
  allChars p (a +:+ b) = allChars p a && allChars p b.
Proof.
  induction a as [|c a IH]; simpl; [reflexivity|].
  now rewrite IH, andb_assoc.
Qed.

Lemma allChars_zeros (k : nat) : allChars hexDigit (zeros k) = true.
Proof. induction k; simpl; [reflexivity | exact IHk]. Qed.

Lemma substring_prefix (a b : string) :
  substring 0 (String.length a) (a +:+ b) = a.
Proof.
  induction a as [|c a IH]; simpl.
  - now destruct b.
  - now rewrite IH.
Qed.

Lemma generateHash_nonempty (now : N) (input : string) :
  String.eqb (generateHash now input) "" = false.
Proof.
  pose proof (content_component_length input) as Hlen.
  unfold generateHash.
  destruct (padStart8 _) as [|c rest]; [discriminate | reflexivity].
Qed.

(** X5. Every hash that [generateHash] makes is a string of at least
    nine lower-case hexadecimal digits.  Its first eight characters,
    which [getCommitHistory] shows as [shortHash], are the content
    component alone: they do not depend on the clock that
    [generateHash] reads. *)
Theorem generateHash_shape (now now' : N) (input : string) :
  allChars hexDigit (generateHash now input) = true
  ∧ (9 ≤ String.length (generateHash now input))%nat
  ∧ substring 0 8 (generateHash now input)
    = padStart8 (toString16 (Z.to_N (Z.abs (hashLoop input 0%Z))))
  ∧ substring 0 8 (generateHash now input)
    = substring 0 8 (generateHash now' input).
Proof.
  assert (Hsub : ∀ t, substring 0 8 (generateHash t input)
    = padStart8 (toString16 (Z.to_N (Z.abs (hashLoop input 0%Z))))).
  { intros t. unfold generateHash.
    rewrite <- (content_component_length input) at 1.
    apply substring_prefix. }
  unfold generateHash at 1 2.
  destruct (toString16_hex now) as [Hh Hl].
  split; [|split; [|split]].
  - rewrite allChars_app, Hh, andb_true_r. unfold padStart8.
    rewrite allChars_app, allChars_zeros.
    apply (toString16_hex _).
  - rewrite string_length_app, content_component_length. lia.
  - apply Hsub.
  - now rewrite !Hsub.
Qed.


(** ** What the queries report after a commit *)


(** Where the walk of [getCommitHistory] stands after the first entry,
    when [createCommit] has just succeeded *)
Lemma getCommitHistory_after_commit
    clk bookmarkData message author s h s' (limit : nat) :
  nowCommitter clk ≤ maxTimeValue →
  createCommit clk bookmarkData message author s = Some (h, s') →
  ∃ commit,
    commitsOf s' !! h = Some commit
    ∧ Commit.hash commit = h
    ∧ Commit.message commit = message
    ∧ Commit.parent commit = headOf s
    ∧ calculateStats bookmarkData = Some (Commit.stats commit)
    ∧ Person.timestamp (Commit.committer commit) = nowCommitter clk
    ∧ getCommitHistory (S limit) s'
      = default [] (walkHistory (commitsOf s') limit (Commit.parent commit)
                                [summaryOf commit]).
Proof.
  intros Hclk H.
  apply createCommit_stored in H
    as (repo & repo' & commit & Hrepo & Hrepo' & Hhead & _ & _ & Hc & _ & Hh
        & Hhash & Hmsg & Hpar & _ & Hstats & Hts & _).
  assert (Hlook : commitsOf s' !! h = Some commit)
    by (rewrite Hc; apply lookup_insert_eq).
  assert (Hne : String.eqb h "" = false)
    by (rewrite Hh; apply generateHash_nonempty).
  exists commit. repeat split; try assumption.
  - unfold headOf. now rewrite Hrepo.
  - unfold getCommitHistory. rewrite Hrepo', Hhead. cbn [truthy_str].
    rewrite Hne. cbn [negb walkHistory]. rewrite Hne, Hlook.
    rewrite toISOString_valid by (rewrite Hts; exact Hclk).
    reflexivity.
Qed.



(** ** Reset *)

(** X8. [resetRepository] answers true and leaves a new, empty
    repository: no commits, an empty history, head null, the one branch
    main pointing to null.  The stored author configuration is back at
    its default, and the change-history log is kept. *)
Theorem resetRepository_fresh (now : N) (g : GitManager) (limit : nat) :
  let r := resetRepository now g in
  let s' := storage r.1 in
  r.2 = true
  ∧ initialized r.1 = true
  ∧ hasCommits s' = false
  ∧ getCommitHistory limit s' = []
  ∧ getRepositoryStats s'
    = RepoStats.mk true 0 1 "main" JsNull (Some now) JsNull
  ∧ getBranches s' = {[ "main" := None ]}
  ∧ git_config s' = Some defaultConfig
  ∧ changeHistory s' = changeHistory (storage g).
Proof.
  cbn. unfold getRepositoryStats, getBranches, hasCommits, getCommitHistory.
  cbn. rewrite map_size_singleton. repeat split.
Qed.

(** X9. The first commit after a reset has no parent, and the history
    then consists of it alone (for a committer timestamp in the range
    of [Date]). *)
Theorem first_commit_after_reset
    (now : N) (g : GitManager) clk bookmarkData message author h s'
    (limit : nat) :
  nowCommitter clk ≤ maxTimeValue →
  createCommit clk bookmarkData message author
               (storage (resetRepository now g).1) = Some (h, s') →
  ∃ commit e,
    commitsOf s' = {[ h := commit ]}
    ∧ Commit.parent commit = None
    ∧ getCommitHistory (S limit) s' = [e]
    ∧ Summary.hash e = h
    ∧ Summary.message e = message.
Proof.
  intros Hclk H.
  destruct (getCommitHistory_after_commit _ _ _ _ _ _ _ limit Hclk H)
    as (commit & Hlook & Hhash & Hmsg & Hpar & _ & _ & Hhist).
  apply createCommit_stored in H
    as (repo & repo' & commit' & _ & _ & _ & _ & _ & Hc & _).
  cbn in Hpar, Hc. rewrite Hc, lookup_insert_eq in Hlook.
  injection Hlook as ->.
  exists commit, (summaryOf commit). split; [exact Hc|].
  split; [exact Hpar|].
  rewrite Hhist, Hpar. split; [now destruct limit|].
  unfold summaryOf, summarize; cbn. auto.
Qed.

(** ** Import, then export *)

(** X10. Exporting right after a successful import gives back the
    repository record and the commit table of the imported bundle,
    provided the bundle has them (as [validateBackupData] checks); the
    branch name and the configuration come back with their defaults
    filled in. *)
Theorem import_export_roundtrip (nowImport nowExport : N)
    (bundle : Bundle.t) (tr : Tracker) :
  validateBackupData (Some bundle) = true →
  let r := importRepository nowImport (Some bundle) tr in
  let bundle' := exportRepository nowExport (storage (gitManager r.1)) in
  r.2 = Success
  ∧ Bundle.repository bundle' = Bundle.repository bundle
  ∧ Bundle.commits bundle' = Bundle.commits bundle
  ∧ Bundle.currentBranch bundle'
    = Some (str_or (Bundle.currentBranch bundle) "main")
  ∧ Bundle.config bundle'
    = Some (default (Config.mk None) (Bundle.config bundle))
  ∧ Bundle.version bundle' = Some "1.0.0".
Proof.
  intros Hv. cbn in Hv.
  apply andb_true_iff in Hv as [Hv _].
  apply andb_true_iff in Hv as [Hr Hc].
  apply bool_decide_eq_true in Hr as [repo Hr].
  apply bool_decide_eq_true in Hc as [commits Hc].
  destruct (importRepository_bundle nowImport bundle tr) as [Hok Hs].
  cbn zeta. split; [exact Hok|].
  unfold exportRepository. rewrite Hs. cbn. rewrite Hr, Hc.
  repeat split.
Qed.

(** ** Start of the tracker *)

(** X11. First run: the tracker is not initialised, the storage has no
    repository, [getTree] delivers a tree that can be counted and the
    clock is in the range of [Date].  Then [BookmarkTracker.initialize]
    leaves exactly one commit: it has the message of the initial
    snapshot, no parent and the tree as data; head points to it and the
    history consists of it alone. *)
Theorem trackerInitialize_first_run
    (now : N) (bookmarkTree : JValue) (clk : CommitClock) (tr : Tracker)
    (limit : nat) :
  isInitialized tr = false →
  initialized (gitManager tr) = false →
  bookmark_git_repo (storage (gitManager tr)) = None →
  is_Some (calculateStats bookmarkTree) →
  nowCommitter clk ≤ maxTimeValue →
  let tr' := trackerInitialize now (Some bookmarkTree) clk tr in
  let s' := storage (gitManager tr') in
  isInitialized tr' = true
  ∧ ∃ commit,
      commitsOf s' = {[ Commit.hash commit := commit ]}
      ∧ headOf s' = Some (Commit.hash commit)
      ∧ Commit.message commit = "Initial bookmark snapshot"
      ∧ Commit.parent commit = None
      ∧ Commit.data commit = bookmarkTree
      ∧ getCommitHistory (S limit) s' = [summaryOf commit].
Proof.
  intros Hinit Hg Hrepo Hstats Hclk. cbn zeta.
  unfold trackerInitialize. rewrite Hinit. cbn [isInitialized].
  split; [reflexivity|]. cbn [gitManager storage].
  unfold initialize. rewrite Hg. cbn [storage initialized].
  unfold ensureRepository. rewrite Hrepo.
  set (s0 := storageSet _ _).
  assert (Hrepo0 : bookmark_git_repo s0 = Some (newRepository now))
    by reflexivity.
  assert (Hc0 : commitsOf s0 = ∅) by reflexivity.
  unfold createInitialSnapshot, hasCommits. rewrite Hc0.
  cbn [negb Nat.eqb]. rewrite map_size_empty. cbn [Nat.eqb negb].
  destruct (createCommit_succeeds clk bookmarkTree
              "Initial bookmark snapshot" "system" s0) as [s1 Hc];
    [rewrite Hrepo0; eauto | exact Hstats |].
  rewrite Hc.
  destruct (getCommitHistory_after_commit _ _ _ _ _ _ _ limit Hclk Hc)
    as (commit & Hlook & Hhash & Hmsg & Hpar & _ & _ & Hhist).
  pose proof Hc as Hc'.
  apply createCommit_stored in Hc'
    as (repo & repo' & commit' & _ & Hrepo' & Hhead & _ & _ & Hcs & _ & _
        & _ & _ & _ & Hdata & _).
  rewrite Hcs, lookup_insert_eq in Hlook. injection Hlook as ->.
  unfold headOf in Hpar. rewrite Hrepo0 in Hpar. cbn in Hpar.
  exists commit. rewrite Hhash.
  split; [rewrite Hcs, Hc0; reflexivity|].
  split; [unfold headOf; rewrite Hrepo'; exact Hhead|].
  split; [exact Hmsg|]. split; [exact Hpar|]. split; [exact Hdata|].
  rewrite Hhist, Hpar. now destruct limit.
Qed.

(** X12. Restart: when the storage has a repository and at least one
    commit, [BookmarkTracker.initialize] makes no snapshot and leaves
    the storage as it is. *)
Theorem trackerInitialize_restart
    (now : N) (tree : option JValue) (clk : CommitClock) (tr : Tracker) :
  isInitialized tr = false →
  is_Some (bookmark_git_repo (storage (gitManager tr))) →
  hasCommits (storage (gitManager tr)) = true →
  let tr' := trackerInitialize now tree clk tr in
  storage (gitManager tr') = storage (gitManager tr)
  ∧ isInitialized tr' = true
  ∧ initialized (gitManager tr') = true.
Proof.
  intros Hinit Hrepo Hcommits. cbn zeta.
  unfold trackerInitialize. rewrite Hinit. cbn.
  assert (Hs : storage (initialize now (gitManager tr))
               = storage (gitManager tr)).
  { unfold initialize. destruct (initialized (gitManager tr));
      [reflexivity|]. cbn. now apply ensureRepository_present. }
  assert (Hi : initialized (initialize now (gitManager tr)) = true).
  { unfold initialize.
    destruct (initialized (gitManager tr)) eqn:E; [exact E | reflexivity]. }
  rewrite Hs, Hi. unfold createInitialSnapshot.
  destruct tree; [rewrite Hcommits|]; auto.
Qed.

(** X13. Whether or not the snapshot succeeds, a tracker that has run
    [initialize] is initialised, its buffer of pending changes is as
    before, and every later call of [initialize] does nothing.  Its
    storage has a repository, provided the commit store was not marked
    initialised without one.  When [getTree] rejects, the storage is the
    one that [GitManager.initialize] leaves. *)
Theorem trackerInitialize_once
    (now now2 : N) (tree tree2 : option JValue) (clk clk2 : CommitClock)
    (tr : Tracker) :
  let tr' := trackerInitialize now tree clk tr in
  isInitialized tr' = true
  ∧ (isInitialized tr = false →
     (initialized (gitManager tr) = true →
      is_Some (bookmark_git_repo (storage (gitManager tr)))) →
     is_Some (bookmark_git_repo (storage (gitManager tr'))))
  ∧ pendingChanges tr' = pendingChanges tr
  ∧ changeBuffer tr' = changeBuffer tr
  ∧ trackerInitialize now2 tree2 clk2 tr' = tr'
  ∧ (isInitialized tr = false → tree = None →
     storage (gitManager tr')
     = storage (initialize now (gitManager tr))).
Proof.
  cbn zeta. unfold trackerInitialize.
  destruct (isInitialized tr) eqn:Hinit.
  - rewrite Hinit. repeat split; try reflexivity; discriminate.
  - cbn. repeat split.
    + intros _ Hg. unfold createInitialSnapshot.
      assert (H0 : is_Some (bookmark_git_repo
                              (storage (initialize now (gitManager tr))))).
      { unfold initialize.
        destruct (initialized (gitManager tr)); cbn;
          [now apply Hg | apply ensureRepository_has_repo]. }
      destruct tree as [t|]; [|exact H0].
      destruct (hasCommits _); [exact H0|].
      destruct (createCommit _ _ _ _ _) as [[h s1]|] eqn:Hc; [|exact H0].
      apply createCommit_stored in Hc as (? & ? & ? & _ & -> & _). eauto.
    + intros _ ->. reflexivity.
Qed.

(** ** Manual snapshots and reading a snapshot back *)

(** X14. [createManualSnapshot] answers success exactly when [getTree]
    delivered a tree that can be counted and the storage has a
    repository.  Then the new head commit has the message given (the
    default one when none was given), the tree as data, the old head as
    parent and the configured author: the label manual is not recorded.
    The change-history log and the buffer of pending changes are as
    before. *)
Theorem createManualSnapshot_created
    (tree : option JValue) (clk : CommitClock) (message : option string)
    (tr : Tracker) :
  let s := storage (gitManager tr) in
  let r := createManualSnapshot tree clk message tr in
  let s' := storage (gitManager r.1) in
  (r.2 = SnapshotCreated
   ↔ is_Some (bookmark_git_repo s)
     ∧ ∃ bookmarkTree, tree = Some bookmarkTree
                       ∧ is_Some (calculateStats bookmarkTree))
  ∧ (r.2 = SnapshotCreated →
     ∃ h commit bookmarkTree,
       tree = Some bookmarkTree
       ∧ headOf s' = Some h
       ∧ commitsOf s' !! h = Some commit
       ∧ Commit.message commit = default "Manual bookmark snapshot" message
       ∧ Commit.data commit = bookmarkTree
       ∧ Commit.parent commit = headOf s
       ∧ Person.name (Commit.author commit) = authorName (configOf s)
       ∧ changeHistory s' = changeHistory s
       ∧ pendingChanges r.1 = pendingChanges tr
       ∧ changeBuffer r.1 = changeBuffer tr).
Proof.
  cbn zeta. unfold createManualSnapshot.
  destruct tree as [bookmarkTree|]; cbn.
  2:{ split; [|discriminate]. split; [discriminate|].
      intros (_ & ? & ? & _). discriminate. }
  destruct (createCommit _ _ _ _ _) as [[h s1]|] eqn:Hc; cbn.
  - pose proof Hc as Hc'.
    apply createCommit_stored in Hc'
      as (repo & repo' & commit & Hrepo & Hrepo' & Hhead & _ & _ & Hcs & _
          & _ & _ & Hmsg & Hpar & Hdata & Hstats & _ & Hname).
    split.
    + split; [|reflexivity]. intros _. rewrite Hrepo.
      split; [eauto|]. exists bookmarkTree. rewrite Hstats. eauto.
    + intros _. exists h, commit, bookmarkTree.
      split; [reflexivity|].
      split; [unfold headOf; rewrite Hrepo'; exact Hhead|].
      split; [rewrite Hcs; apply lookup_insert_eq|].
      split; [exact Hmsg|]. split; [exact Hdata|].
      split; [unfold headOf; rewrite Hrepo; exact Hpar|].
      split; [exact Hname|].
      apply createCommit_inv in Hc
        as (? & ? & ? & _ & _ & _ & _ & _ & _ & _ & _ & ->). auto.
  - split; [|discriminate]. split; [discriminate|].
    intros (Hrepo & t & [= <-] & Hstats).
    destruct (createCommit_succeeds clk bookmarkTree
                (default "Manual bookmark snapshot" message) "manual"
                (storage (gitManager tr)) Hrepo Hstats) as [s1 Hs1].
    rewrite Hs1 in Hc. discriminate.
Qed.

(** X15. A manual snapshot that fails changes nothing: the tracker and
    its storage are as before, and the answer names the cause, the
    rejected [getTree] or the exception of [createCommit]. *)
Theorem createManualSnapshot_failed
    (tree : option JValue) (clk : CommitClock) (message : option string)
    (tr : Tracker) (cause : Fault) :
  (createManualSnapshot tree clk message tr).2 = SnapshotFailed cause →
  (createManualSnapshot tree clk message tr).1 = tr
  ∧ (cause = TreeRejected ↔ tree = None)
  ∧ (cause = CommitThrew
     ↔ ∃ bookmarkTree,
         tree = Some bookmarkTree
         ∧ (bookmark_git_repo (storage (gitManager tr)) = None
            ∨ calculateStats bookmarkTree = None)).
Proof.
  unfold createManualSnapshot.
  destruct tree as [bookmarkTree|]; cbn.
  - destruct (createCommit _ _ _ _ _) as [[h s1]|] eqn:Hc; cbn;
      [discriminate|].
    intros [= <-]. split; [reflexivity|].
    split; [split; discriminate|].
    split; [|reflexivity]. intros _. exists bookmarkTree.
    split; [reflexivity|].
    destruct (bookmark_git_repo (storage (gitManager tr))) as [repo|] eqn:Hr;
      [|now left].
    destruct (calculateStats bookmarkTree) as [stats|] eqn:Hs; [|now right].
    destruct (createCommit_succeeds clk bookmarkTree
                (default "Manual bookmark snapshot" message) "manual"
                (storage (gitManager tr))) as [s1 Hs1];
      [rewrite Hr; eauto | rewrite Hs; eauto |].
    rewrite Hs1 in Hc. discriminate.
  - intros [= <-]. split; [reflexivity|].
    split; [split; reflexivity|].
    split; [discriminate|]. intros (? & ? & _). discriminate.
Qed.

(** X16. [restoreFromCommit] answers with the data of the commit when
    the table has the hash and the data is truthy, and otherwise with
    the error that the commit data was not found.  In particular it
    gives back the tree of a manual snapshot that has just been made,
    for the hash that head then points to. *)
Theorem restoreFromCommit_snapshot (commitHash : string) (tr : Tracker) :
  let s := storage (gitManager tr) in
  (∀ data, restoreFromCommit commitHash tr = Restored data
           ↔ truthy data = true
             ∧ ∃ commit, commitsOf s !! commitHash = Some commit
                         ∧ Commit.data commit = data)
  ∧ (∀ error, restoreFromCommit commitHash tr = RestoreFailed error →
              error = "Commit data not found")
  ∧ (commitsOf s !! commitHash = None →
     restoreFromCommit commitHash tr
     = RestoreFailed "Commit data not found")
  ∧ (∀ bookmarkTree clk message tr0,
       createManualSnapshot (Some bookmarkTree) clk message tr0
       = (tr, SnapshotCreated) →
       headOf s = Some commitHash →
       truthy bookmarkTree = true →
       restoreFromCommit commitHash tr = Restored bookmarkTree).
Proof.
  cbn zeta. unfold restoreFromCommit, getCommitData.
  split; [|split; [|split]].
  - intros data.
    destruct (commitsOf (storage (gitManager tr)) !! commitHash)
      as [commit|] eqn:Hl.
    + destruct (truthy (Commit.data commit)) eqn:Ht; cbn; split.
      * intros [= <-]. eauto.
      * intros (_ & c & [= <-] & <-). reflexivity.
      * discriminate.
      * intros (Ht' & c & [= <-] & <-). congruence.
    + cbn. split; [discriminate|]. intros (_ & c & ? & _). discriminate.
  - intros error. destruct (negb _); [now intros [= <-] | discriminate].
  - now intros ->.
  - intros bookmarkTree clk message tr0 Hsnap Hhead Ht.
    unfold createManualSnapshot in Hsnap.
    destruct (createCommit _ _ _ _ _) as [[h s1]|] eqn:Hc; [|discriminate].
    injection Hsnap as <-. cbn in *.
    apply createCommit_stored in Hc
      as (repo & repo' & commit & _ & Hrepo' & Hh & _ & _ & Hcs & _ & _ & _
          & _ & _ & Hdata & _).
    unfold headOf in Hhead. rewrite Hrepo' in Hhead. cbn in Hhead.
    rewrite Hh in Hhead. injection Hhead as <-.
    rewrite Hcs, lookup_insert_eq, Hdata, Ht. reflexivity.
Qed.

(** ** The message listener *)

(** X17. No message from the popup or the options page disturbs the
    debounce buffer: after every request the pending changes, the
    timeout, the delay and the initialised flag are as before.  The
    requests that only read (history, snapshot data, status, stats,
    export, unknown actions) leave the whole tracker as it is, and the
    status answer reports the number of pending changes. *)
Theorem handleMessage_keeps_buffer
    (env : Surroundings) (request : Request) (tr : Tracker) :
  let r := handleMessage env request tr in
  pendingChanges r.1 = pendingChanges tr
  ∧ changeBuffer r.1 = changeBuffer tr
  ∧ bufferDelay r.1 = bufferDelay tr
  ∧ isInitialized r.1 = isInitialized tr
  ∧ (match request with
     | CreateSnapshot _ | ImportRepository _ | ResetRepository => True
     | _ => r.1 = tr
     end)
  ∧ (request = GetStatus →
     r.2 = StatusAnswer (Status.mk (isInitialized tr)
                                   (length (pendingChanges tr))))
  ∧ (∀ action, request = OtherAction action →
               r.2 = ErrorAnswer "Unknown action").
Proof.
  cbn zeta. destruct request; cbn;
    try (repeat split; (reflexivity || discriminate || now intros ? [= <-])).
  - unfold createManualSnapshot.
    destruct (treeIs env); [|repeat split; discriminate].
    destruct (createCommit _ _ _ _ _) as [[h s]|];
      repeat split; discriminate.
  - destruct data; repeat split; discriminate.
Qed.
(** ** The bulk message *)

Lemma firstOccurrences_elem (x : string) (l : list string) :
  x ∈ firstOccurrences l ↔ x ∈ l.
Proof.
  induction l as [|y l IH]; [reflexivity|].
  cbn [firstOccurrences]. rewrite !elem_of_cons, list_elem_of_filter, IH.
  destruct (decide (x = y)); tauto.
Qed.

Lemma firstOccurrences_NoDup (l : list string) :
  NoDup (firstOccurrences l).
Proof.
  induction l as [|y l IH]; [constructor|].
  cbn [firstOccurrences]. constructor.
  - rewrite list_elem_of_filter. tauto.
  - now apply NoDup_filter.
Qed.

Lemma firstOccurrences_snoc (l : list string) (t : string) :
  firstOccurrences (l ++ [t])
  = if decide (t ∈ l) then firstOccurrences l
    else firstOccurrences l ++ [t].
Proof.
  induction l as [|y l IH].
  - cbn. destruct (decide (t ∈ [])) as [H|_]; [|reflexivity].
    now apply elem_of_nil in H.
  - cbn [app firstOccurrences]. rewrite IH.
    destruct (decide (t ∈ l)) as [Hin|Hin].
    + rewrite decide_True by (apply elem_of_cons; tauto). reflexivity.
    + rewrite filter_app, filter_cons, filter_nil.
      destruct (decide (t ∈ y :: l)) as [Hin'|Hin'];
        destruct (decide (t ≠ y)) as [Hne|He].
      * apply elem_of_cons in Hin' as [?|?]; contradiction.
      * now rewrite app_nil_r.
      * reflexivity.
      * exfalso. apply Hin'. apply elem_of_cons.
        destruct (decide (t = y)); tauto.
Qed.

Lemma occurrences_snoc (type t : string) (l : list string) :
  occurrences type (l ++ [t])
  = occurrences type l + (if String.eqb type t then 1 else 0).
Proof.
  unfold occurrences. rewrite countIf_app, countIf_cons.
  change (countIf (String.eqb type) []) with 0.
  destruct (String.eqb type t); lia.
Qed.

Lemma occurrences_absent (type : string) (l : list string) :
  type ∉ l → occurrences type l = 0.
Proof.
  unfold occurrences. induction l as [|y l IH]; intros Hn; [reflexivity|].
  rewrite countIf_cons, IH by (rewrite elem_of_cons in Hn; tauto).
  destruct (String.eqb_spec type y) as [->|_]; [|reflexivity].
  exfalso. apply Hn. apply elem_of_cons. tauto.
Qed.

Lemma occurrences_present (type : string) (l : list string) :
  type ∈ l → 0 < occurrences type l.
Proof.
  unfold occurrences. induction l as [|y l IH]; intros Hin.
  - now apply elem_of_nil in Hin.
  - rewrite countIf_cons.
    destruct (String.eqb_spec type y) as [->|Hne]; [lia|].
    apply elem_of_cons in Hin as [?|Hin]; [contradiction|].
    specialize (IH Hin). lia.
Qed.

(** [bump] on a table whose keys are distinct *)
Lemma bump_map (t : string) (keys : list string) (f : string → N) :
  NoDup keys →
  bump t (map (fun k => (k, f k)) keys)
  = if decide (t ∈ keys)
    then map (fun k => (k, f k + (if String.eqb k t then 1 else 0))) keys
    else map (fun k => (k, f k)) keys ++ [(t, 1)].
Proof.
  induction keys as [|k keys IH]; intros Hnd.
  - cbn. destruct (decide (t ∈ [])) as [H|_]; [|reflexivity].
    now apply elem_of_nil in H.
  - apply NoDup_cons in Hnd as [Hk Hnd]. cbn [map bump].
    destruct (String.eqb_spec k t) as [->|Hne].
    + rewrite decide_True by (apply elem_of_cons; tauto).
      f_equal. apply map_ext_in. intros k Hin.
      destruct (String.eqb_spec k t) as [->|_].
      * exfalso. apply Hk. now apply list_elem_of_In.
      * f_equal. lia.
    + rewrite (IH Hnd). destruct (decide (t ∈ keys)) as [Hin|Hin].
      * rewrite decide_True by (apply elem_of_cons; tauto).
        f_equal. f_equal. lia.
      * rewrite decide_False by (rewrite elem_of_cons; intros [?|?];
                                 [congruence | contradiction]).
        reflexivity.
Qed.

Lemma countEvents_types (changes : list Change.t) :
  countEvents changes
  = fold_left (fun counts type => bump type counts) (typesOf changes) [].
Proof.
  unfold countEvents, typesOf. generalize (@nil (string * N)).
  induction changes as [|ch changes IH]; intros acc; [reflexivity|].
  cbn. apply IH.
Qed.

Lemma histogram_types (types : list string) :
  fold_left (fun counts type => bump type counts) types []
  = map (fun type => (type, occurrences type types))
        (firstOccurrences types).
Proof.
  induction types as [|t types IH] using rev_ind; [reflexivity|].
  rewrite fold_left_app. cbn [fold_left]. rewrite IH.
  rewrite bump_map by apply firstOccurrences_NoDup.
  rewrite firstOccurrences_snoc.
  destruct (decide (t ∈ firstOccurrences types)) as [Hin|Hin];
    rewrite firstOccurrences_elem in Hin.
  - rewrite decide_True by exact Hin.
    apply map_ext. intros k. now rewrite occurrences_snoc.
  - rewrite decide_False by exact Hin.
    rewrite map_app. cbn [map]. f_equal.
    + apply map_ext_in. intros k Hk. rewrite occurrences_snoc.
      destruct (String.eqb_spec k t) as [->|_]; [|f_equal; lia].
      exfalso. apply Hin. apply firstOccurrences_elem.
      now apply list_elem_of_In.
    + rewrite occurrences_snoc, (occurrences_absent _ _ Hin).
      now rewrite String.eqb_refl.
Qed.

(** X18. The table behind the bulk message is the histogram of the
    event types: [countEvents] lists each type that occurs once, in the
    order of first occurrence, with the number of changes of that type.
    So the types listed are distinct, every count is positive, and there
    are at most seven of them. *)
Theorem countEvents_histogram (changes : list Change.t) :
  countEvents changes
  = map (fun type => (type, occurrences type (typesOf changes)))
        (firstOccurrences (typesOf changes))
  ∧ NoDup (map fst (countEvents changes))
  ∧ (∀ type count, (type, count) ∈ countEvents changes → 0 < count)
  ∧ (length (countEvents changes) ≤ 7)%nat.
Proof.
  assert (Heq : countEvents changes
    = map (fun type => (type, occurrences type (typesOf changes)))
          (firstOccurrences (typesOf changes)))
    by (rewrite countEvents_types; apply histogram_types).
  assert (Hkeys : map fst (countEvents changes)
                  = firstOccurrences (typesOf changes)).
  { rewrite Heq, map_map. cbn. apply map_id. }
  split; [exact Heq|]. split; [|split].
  - rewrite Hkeys. apply firstOccurrences_NoDup.
  - intros type count Hin. rewrite Heq in Hin.
    apply list_elem_of_In, in_map_iff in Hin as (k & [= -> <-] & Hk).
    apply occurrences_present.
    now apply firstOccurrences_elem, list_elem_of_In.
  - rewrite <- (length_map fst), Hkeys.
    change 7%nat with (length ["created"; "removed"; "moved"; "changed";
                               "reordered"; "import_began"; "import_ended"]).
    apply submseteq_length, NoDup_submseteq;
      [apply firstOccurrences_NoDup|].
    intros type Hin. apply (proj1 (firstOccurrences_elem _ _)) in Hin.
    unfold typesOf in Hin.
    apply list_elem_of_In, in_map_iff in Hin as (ch & <- & _).
    destruct (Change.event ch); cbn; set_solver.
Qed.
(** ** Paging through the history *)



End MoreProperties.

(** * The popup and the settings page *)

Section PageProperties.

Context `{platform : Platform} `{locale : Locale}.
(** ** The stats of the popup *)

Lemma popupCountItems_bookmarkNodes (nodes : JValue) :
  (bookmarkNodes nodes = true →
   ∀ c, popupCountItems nodes c = countItems nodes c
        ∧ is_Some (countItems nodes c))
  ∧ (∀ ch, childrenOf nodes = Some ch →
           bookmarkNodes ch = true →
           ∀ c, popupCountItems ch c = countItems ch c
                ∧ is_Some (countItems ch c)).
Proof.
  induction nodes as [ | b | z | s | items IH | url children others IH]
    using JValue_tree_ind;
    try (split; [discriminate | cbn; discriminate]).
  - split; [|cbn; discriminate].
    induction IH as [|node rest [_ Hnode] _ IHrest]; intros Hb c.
    + cbn. eauto.
    + cbn [bookmarkNodes forallb] in Hb.
      apply andb_true_iff in Hb as [Hn Hrest].
      specialize (IHrest Hrest).
      destruct node as [ | b | z | s | its | u [ch|] o]; try discriminate.
      * destruct (truthy_prop u) eqn:Hu.
        -- cbn [truthy_prop] in Hn. apply negb_true_iff in Hn.
           simpl. rewrite Hu, Hn. apply IHrest.
        -- destruct (Hnode ch eq_refl Hn
                       (mkCounters (cntBookmarks c) (cntFolders c + 1)))
             as [Heq [c2 Hc2]].
           simpl. rewrite Hu.
           destruct (truthy ch) eqn:Hch.
           ++ simpl in Heq, Hc2. rewrite Heq, Hc2. apply IHrest.
           ++ destruct ch; try discriminate; cbn in Hch; discriminate.
      * destruct (truthy_prop u) eqn:Hu; [|discriminate].
        simpl. rewrite Hu. apply IHrest.
  - split; [discriminate|]. cbn. intros ch ->. exact (proj1 (IH ch eq_refl)).
Qed.

(** X20. On the trees that [chrome.bookmarks.getTree] delivers (every
    node a bookmark with a truthy [url] and no [children], or a folder
    with an array of such nodes as [children]) the popup and the commit
    store count alike: [calculateBookmarkStats] returns the bookmarks
    and the folders of [calculateStats], neither count throws, and
    [getRepoStats] shows them. *)
Theorem calculateBookmarkStats_agrees (nodes : JValue) :
  bookmarkNodes nodes = true →
  ∃ stats,
    calculateStats nodes = Some stats
    ∧ calculateBookmarkStats nodes
      = Some (BookmarkStats.mk (Stats.totalBookmarks stats)
                               (Stats.totalFolders stats))
    ∧ getRepoStats (Some nodes)
      = BookmarkStats.mk (Stats.totalBookmarks stats)
                         (Stats.totalFolders stats).
Proof.
  intros Hb.
  destruct (proj1 (popupCountItems_bookmarkNodes nodes) Hb (mkCounters 0 0))
    as [Heq [c Hc]].
  assert (Harr : isArray nodes = true) by (destruct nodes; easy).
  unfold getRepoStats, calculateBookmarkStats, calculateStats. cbn [mbind option_bind].
  rewrite Harr, Heq, Hc. eexists. split; [reflexivity|]. cbn. auto.
Qed.
Lemma popupCountItems_below (nodes : JValue) :
  (∀ c c1, countItems nodes c = Some c1 →
     (cntBookmarks c ≤ cntBookmarks c1 ∧ cntFolders c ≤ cntFolders c1)
     ∧ ∀ c', ∃ c1',
         popupCountItems nodes c' = Some c1'
         ∧ cntBookmarks c1' + cntBookmarks c
           ≤ cntBookmarks c1 + cntBookmarks c'
         ∧ cntFolders c1' + cntFolders c ≤ cntFolders c1 + cntFolders c')
  ∧ (∀ ch, childrenOf nodes = Some ch →
     ∀ c c1, countItems ch c = Some c1 →
     (cntBookmarks c ≤ cntBookmarks c1 ∧ cntFolders c ≤ cntFolders c1)
     ∧ ∀ c', ∃ c1',
         popupCountItems ch c' = Some c1'
         ∧ cntBookmarks c1' + cntBookmarks c
           ≤ cntBookmarks c1 + cntBookmarks c'
         ∧ cntFolders c1' + cntFolders c ≤ cntFolders c1 + cntFolders c').
Proof.
  induction nodes as [ | b | z | s | items IH | url children others IH]
    using JValue_tree_ind;
    try (split; [| cbn; discriminate];
         intros c c1 [= <-]; split; [lia|];
         intros c'; exists c'; cbn; split; [reflexivity | lia]).
  - split; [|cbn; discriminate].
    induction IH as [|node rest [_ Hnode] _ IHrest]; intros c c1 H.
    + injection H as <-. split; [lia|].
      intros c'. exists c'. cbn. split; [reflexivity | lia].
    + destruct node as [ | b | z | s | its | u [ch|] o];
        simpl in H; try discriminate;
        try (apply IHrest in H as [Hm Hp]; cbn in Hm;
             split; [lia|]; intros c'; destruct (Hp c') as (c1' & Hc1 & ?);
             exists c1'; split; [exact Hc1 | cbn in *; lia]).
      * destruct (truthy_prop u) eqn:Hu.
        -- destruct (truthy ch) eqn:Hch.
           ++ destruct (countItems ch _) as [c2|] eqn:Hc2; [|discriminate].
              apply (Hnode ch eq_refl) in Hc2 as [Hm2 _]. cbn in Hm2.
              apply IHrest in H as [Hm Hp].
              split; [lia|]. intros c'.
              destruct (Hp (mkCounters (cntBookmarks c' + 1) (cntFolders c')))
                as (c1' & Hc1 & ?).
              exists c1'. simpl. rewrite Hu.
              split; [exact Hc1 | cbn in *; lia].
           ++ apply IHrest in H as [Hm Hp]. cbn in Hm.
              split; [lia|]. intros c'.
              destruct (Hp (mkCounters (cntBookmarks c' + 1) (cntFolders c')))
                as (c1' & Hc1 & ?).
              exists c1'. simpl. rewrite Hu.
              split; [exact Hc1 | cbn in *; lia].
        -- destruct (truthy ch) eqn:Hch.
           ++ destruct (countItems ch _) as [c2|] eqn:Hc2; [|discriminate].
              apply (Hnode ch eq_refl) in Hc2 as [Hm2 Hp2]. cbn in Hm2.
              apply IHrest in H as [Hm Hp].
              split; [lia|]. intros c'.
              destruct (Hp2 (mkCounters (cntBookmarks c') (cntFolders c' + 1)))
                as (c2' & Hc2' & ?).
              destruct (Hp c2') as (c1' & Hc1 & ?).
              exists c1'. simpl. rewrite Hu, Hch. simpl in Hc2'.
              rewrite Hc2'. split; [exact Hc1 | cbn in *; lia].
           ++ apply IHrest in H as [Hm Hp]. cbn in Hm.
              split; [lia|]. intros c'.
              destruct (Hp c') as (c1' & Hc1 & ?).
              exists c1'. simpl. rewrite Hu, Hch.
              split; [exact Hc1 | cbn in *; lia].
      * destruct (truthy_prop u) eqn:Hu;
          apply IHrest in H as [Hm Hp]; cbn in Hm;
          (split; [lia|]); intros c'.
        -- destruct (Hp (mkCounters (cntBookmarks c' + 1) (cntFolders c')))
             as (c1' & Hc1 & ?).
           exists c1'. simpl. rewrite Hu.
           split; [exact Hc1 | cbn in *; lia].
        -- destruct (Hp c') as (c1' & Hc1 & ?).
           exists c1'. simpl. rewrite Hu.
           split; [exact Hc1 | cbn in *; lia].
  - split.
    + intros c c1 [= <-]. split; [lia|].
      intros c'. exists c'. cbn. split; [reflexivity | lia].
    + cbn. intros ch ->. exact (proj1 (IH ch eq_refl)).
Qed.

(** X21. The popup never counts more than the commit store: on every
    snapshot that [calculateStats] can count, [calculateBookmarkStats]
    does not throw either, and it finds at most as many bookmarks and at
    most as many folders. *)
Theorem calculateBookmarkStats_at_most (nodes : JValue) (stats : Stats.t) :
  calculateStats nodes = Some stats →
  ∃ shown,
    calculateBookmarkStats nodes = Some shown
    ∧ BookmarkStats.totalBookmarks shown ≤ Stats.totalBookmarks stats
    ∧ BookmarkStats.totalFolders shown ≤ Stats.totalFolders stats.
Proof.
  unfold calculateStats, calculateBookmarkStats. intros H.
  destruct (isArray nodes) eqn:Harr.
  - destruct (countItems nodes _) as [c1|] eqn:Hc; [|discriminate].
    injection H as <-.
    apply (proj1 (popupCountItems_below nodes)) in Hc as [_ Hp].
    destruct (Hp (mkCounters 0 0)) as (c1' & -> & ? & ?).
    eexists. split; [reflexivity|]. cbn in *. lia.
  - injection H as <-.
    destruct nodes; try discriminate; cbn;
      (eexists; split; [reflexivity | cbn; lia]).
Qed.
(** ** The list of commits of the popup *)

(** X22. What the popup lists after a search: with an empty query, the
    whole history; with a query that some commit matches (in its
    message, its hash or its author name), exactly the matching commits,
    in the order of the history; and with a query that no commit
    matches, again the whole history.  So the list is empty only when
    the history is. *)
Theorem filterCommits_shown (searchInput : string) (p : Popup) :
  let query := toLowerCase searchInput in
  let found := List.filter (matchesQuery query) (commitHistory p) in
  let shown := renderCommitHistory (filterCommits searchInput p) in
  (query = "" → shown = commitHistory p)
  ∧ (query ≠ "" → found ≠ [] → shown = found)
  ∧ (found = [] → shown = commitHistory p)
  ∧ (shown = [] ↔ commitHistory p = [])
  ∧ (∀ commit, In commit shown → In commit (commitHistory p))
  ∧ commitHistory (filterCommits searchInput p) = commitHistory p.
Proof.
  cbn zeta. unfold renderCommitHistory, filterCommits.
  cbn [filteredHistory commitHistory].
  destruct (String.eqb_spec (toLowerCase searchInput) "") as [Hq|Hq].
  - assert (Hsame : (if (0 <? length (commitHistory p))%nat
                     then commitHistory p else commitHistory p)
                    = commitHistory p)
      by (now destruct (0 <? _)%nat).
    rewrite Hsame. repeat split; auto; contradiction.
  - destruct (List.filter _ (commitHistory p)) as [|e found] eqn:Hf;
      cbn [length Nat.ltb Nat.leb].
    + repeat split; auto; contradiction.
    + change (0 <? S (length found))%nat with true. cbv iota.
      repeat split; try congruence; try discriminate.
      * intros Hnil. rewrite Hnil in Hf. discriminate.
      * intros commit Hin. rewrite <- Hf in Hin.
        now apply filter_In in Hin.
Qed.

Lemma walkHistory_length (commits : gmap string Commit.t) :
  ∀ (remaining : nat) (cur : option string) (acc history : list Summary.t),
    walkHistory commits remaining cur acc = Some history →
    (length history ≤ length acc + remaining)%nat.
Proof.
  induction remaining as [|n IH]; intros cur acc history H.
  - injection H as <-. lia.
  - cbn [walkHistory] in H.
    destruct cur as [h|]; [|injection H as <-; lia].
    destruct (String.eqb h ""); [injection H as <-; lia|].
    destruct (commits !! h) as [commit|]; [|injection H as <-; lia].
    destruct (toISOString _) as [date|]; [|discriminate].
    apply IH in H. rewrite length_app in H. cbn in H. lia.
Qed.

Lemma getCommitHistory_length (limit : nat) (s : Storage) :
  (length (getCommitHistory limit s) ≤ limit)%nat.
Proof.
  unfold getCommitHistory.
  destruct (bookmark_git_repo s) as [repo|]; [|cbn; lia].
  destruct (truthy_str (Repo.head repo)); [|cbn; lia].
  destruct (walkHistory _ _ _ _) as [history|] eqn:Hw; [|cbn; lia].
  apply walkHistory_length in Hw. cbn in *. lia.
Qed.

(** X23. [loadData] on an initialised tracker: the popup holds the
    history that the commit store gives for a limit of 50, so the total
    that the stats tab shows never exceeds 50, and it holds the stats of
    its own tree.  The result of an earlier search is kept: as long as
    it is not empty, the list shows it and not the new history.  On a
    tracker that is not initialised the popup keeps what it had. *)
Theorem loadData_history
    (env : Surroundings) (tree : option JValue) (tr : Tracker) (p : Popup) :
  let p' := loadData env tree tr p in
  (isInitialized tr = true →
   commitHistory p' = getCommitHistory 50 (storage (gitManager tr))
   ∧ (shownTotalCommits p' ≤ 50)%nat
   ∧ repoStats p' = Some (getRepoStats tree)
   ∧ statusText p' = "Active"
   ∧ (filteredHistory p ≠ [] →
      renderCommitHistory p' = filteredHistory p)
   ∧ (filteredHistory p = [] →
      renderCommitHistory p' = getCommitHistory 50 (storage (gitManager tr))))
  ∧ (isInitialized tr = false →
     commitHistory p' = commitHistory p
     ∧ repoStats p' = repoStats p
     ∧ statusText p' = "Not initialized").
Proof.
  cbn zeta. unfold loadData, shownTotalCommits, renderCommitHistory.
  cbn [handleMessage snd Status.initialized].
  destruct (isInitialized tr); split; try discriminate; intros _;
    cbn [commitHistory filteredHistory repoStats statusText];
    [|repeat split].
  unfold trackerGetCommitHistory. cbn [default].
  repeat split.
  - apply getCommitHistory_length.
  - intros Hne. destruct (filteredHistory p); [contradiction | reflexivity].
  - now intros ->.
Qed.

(** ** Relative times *)

(** X24. [getRelativeTime] shows the largest unit that fits and a count
    that is in range: just now below one minute (also for a date in the
    future), 1 to 59 minutes, 1 to 23 hours, 1 to 29 days, each the
    number of whole units elapsed, and the date itself from 30 days
    on. *)
Theorem getRelativeTime_units (now date : N) :
  let elapsed := (Z.of_N now - Z.of_N date)%Z in
  match getRelativeTime now date with
  | JustNow => (elapsed < 60000)%Z
  | MinutesAgo m =>
      (1 ≤ m ≤ 59)%Z ∧ (m * 60000 ≤ elapsed < (m + 1) * 60000)%Z
  | HoursAgo h =>
      (1 ≤ h ≤ 23)%Z ∧ (h * 3600000 ≤ elapsed < (h + 1) * 3600000)%Z
  | DaysAgo d =>
      (1 ≤ d ≤ 29)%Z ∧ (d * 86400000 ≤ elapsed < (d + 1) * 86400000)%Z
  | OnDate t => t = date ∧ (2592000000 ≤ elapsed)%Z
  end.
Proof.
  cbn zeta. unfold getRelativeTime.
  set (elapsed := (Z.of_N now - Z.of_N date)%Z). clearbody elapsed.
  destruct (Z.ltb_spec (elapsed / 60000) 1);
    [Z.to_euclidean_division_equations; lia|].
  destruct (Z.ltb_spec (elapsed / 60000) 60);
    [Z.to_euclidean_division_equations; lia|].
  destruct (Z.ltb_spec (elapsed / 3600000) 24);
    [Z.to_euclidean_division_equations; lia|].
  destruct (Z.ltb_spec (elapsed / 86400000) 30);
    [Z.to_euclidean_division_equations; lia|].
  split; [reflexivity|]. Z.to_euclidean_division_equations. lia.
Qed.

(** X25. [formatDuration] of a duration that is not negative: less than
    an hour below one hour, 1 to 23 whole hours below one day, and from
    one day on the whole days alone, without the hours. *)
Theorem formatDuration_units (ms : Z) :
  (0 ≤ ms)%Z →
  match formatDuration ms with
  | LessThanHour => (ms < 3600000)%Z
  | Hours h => (1 ≤ h ≤ 23)%Z ∧ (h * 3600000 ≤ ms < (h + 1) * 3600000)%Z
  | Days d => (1 ≤ d)%Z ∧ (d * 86400000 ≤ ms < (d + 1) * 86400000)%Z
  end.
Proof.
  intros Hms. unfold formatDuration.
  rewrite Z.rem_mod_nonneg by lia.
  destruct (Z.eqb_spec (ms / 86400000) 0) as [Hd|Hd]; cbn [andb].
  - destruct (Z.eqb_spec (ms mod 86400000 / 3600000) 0) as [Hh|Hh];
      Z.to_euclidean_division_equations; lia.
  - Z.to_euclidean_division_equations. lia.
Qed.
(** ** The settings page *)

Lemma str_or_Some (s d : string) :
  str_or (Some s) d = if String.eqb s "" then d else s.
Proof. reflexivity. Qed.

(** X26. Saving the settings and loading them again: the automatic
    commit flag comes back as saved; the author name, the e-mail and the
    commit delay come back as saved unless they were saved empty (or
    zero), in which case the page keeps what it showed before.  So what
    [onSettingChange] reads from a form with a name and an e-mail comes
    back unchanged.  Saving touches neither the repository, the commit
    table, the branch nor the change-history log. *)
Theorem settings_roundtrip
    (form : SettingsForm) (settings current : Settings.t)
    (ls : LocalStorage) :
  let ls' := saveSettingsToStorage settings ls in
  let loaded := loadSettings current ls' in
  Settings.authorName loaded
  = (if String.eqb (Settings.authorName settings) ""
     then Settings.authorName current else Settings.authorName settings)
  ∧ Settings.authorEmail loaded
    = (if String.eqb (Settings.authorEmail settings) ""
       then Settings.authorEmail current else Settings.authorEmail settings)
  ∧ Settings.autoCommit loaded = Settings.autoCommit settings
  ∧ Settings.commitDelay loaded
    = (if (Settings.commitDelay settings =? 0)%Z
       then Settings.commitDelay current else Settings.commitDelay settings)
  ∧ (nameField form ≠ "" → emailField form ≠ "" →
     loadSettings current (saveSettingsToStorage (onSettingChange form) ls)
     = onSettingChange form)
  ∧ bookmark_git_repo (repositorySlots ls')
    = bookmark_git_repo (repositorySlots ls)
  ∧ bookmark_commits (repositorySlots ls')
    = bookmark_commits (repositorySlots ls)
  ∧ current_branch (repositorySlots ls')
    = current_branch (repositorySlots ls)
  ∧ changeHistory (repositorySlots ls') = changeHistory (repositorySlots ls).
Proof.
  cbn zeta. unfold loadSettings, saveSettingsToStorage, configOf.
  cbn. repeat split.
  intros Hname Hemail. unfold onSettingChange. cbn.
  apply String.eqb_neq in Hname, Hemail. rewrite Hname, Hemail.
  f_equal. unfold num_or. destruct (delayField form) as [z|]; [|reflexivity].
  destruct (Z.eqb_spec z 0) as [->|Hz]; [reflexivity|].
  apply Z.eqb_neq in Hz. now rewrite Hz.
Qed.

(** X27. The author of a commit is the one that the settings page
    saved: after [saveSettingsToStorage], a successful [createCommit]
    records the saved name and e-mail for author and committer, and the
    defaults in place of a field that was saved empty.  This is also the
    name that a newly opened settings page shows. *)
Theorem saved_author_in_commits
    (settings : Settings.t) (ls : LocalStorage) clk bookmarkData message
    author h s' :
  createCommit clk bookmarkData message author
               (repositorySlots (saveSettingsToStorage settings ls))
  = Some (h, s') →
  ∃ commit,
    commitsOf s' !! h = Some commit
    ∧ Person.name (Commit.author commit)
      = (if String.eqb (Settings.authorName settings) ""
         then defaultName else Settings.authorName settings)
    ∧ Person.email (Commit.author commit)
      = (if String.eqb (Settings.authorEmail settings) ""
         then defaultEmail else Settings.authorEmail settings)
    ∧ Person.name (Commit.committer commit)
      = Person.name (Commit.author commit)
    ∧ Person.email (Commit.committer commit)
      = Person.email (Commit.author commit)
    ∧ Settings.authorName
        (loadSettings defaultSettings
           (mkLocal s' (extension_settings
                          (saveSettingsToStorage settings ls))))
      = Person.name (Commit.author commit).
Proof.
  unfold createCommit. intros H.
  destruct (bookmark_git_repo _) as [repo|]; [|discriminate].
  destruct (calculateStats bookmarkData) as [stats|]; [|discriminate].
  injection H as <- <-. eexists. split.
  - unfold commitsOf at 1. cbn. apply lookup_insert_eq.
  - cbn. repeat split.
Qed.

(** X28. Confirming the reset on the settings page: the toast reports
    success, the modal is disarmed, the background page has an empty
    repository (no commits, an empty history), its buffer of pending
    changes is as before, and the author configuration is back at its
    default, so a newly opened settings page shows the default author
    whatever had been saved. *)
Theorem executeAction_reset (now : N) (b : Browser) (limit : nat)
    (ext : option ExtensionSettings.t) :
  pendingAction (options b) = Some ResetAction →
  let b' := executeAction now b in
  let s' := storage (gitManager (background b')) in
  toast (options b') = Some ("Repository reset successfully", "success")
  ∧ pendingAction (options b') = None
  ∧ hasCommits s' = false
  ∧ getCommitHistory limit s' = []
  ∧ changeHistory s' = changeHistory (storage (gitManager (background b)))
  ∧ pendingChanges (background b') = pendingChanges (background b)
  ∧ changeBuffer (background b') = changeBuffer (background b)
  ∧ authorName (configOf s') = defaultName
  ∧ authorEmail (configOf s') = defaultEmail
  ∧ Settings.authorName (loadSettings defaultSettings (mkLocal s' ext))
    = defaultName
  ∧ Settings.authorEmail (loadSettings defaultSettings (mkLocal s' ext))
    = defaultEmail.
Proof.
  intros Hp. cbn zeta. unfold executeAction. rewrite Hp.
  unfold loadSettings. cbn.
  unfold hasCommits, getCommitHistory. cbn. rewrite map_size_empty.
  destruct ext; repeat split.
Qed.

Lemma getCurrentBranch_nonempty (s : Storage) :
  String.eqb (getCurrentBranch s) "" = false.
Proof.
  unfold getCurrentBranch, str_or.
  destruct (current_branch s) as [br|]; [|reflexivity].
  destruct (String.eqb br "") eqn:E; [reflexivity | exact E].
Qed.

(** X29. What the settings page shows of the repository: the number of
    commits of the table, the current branch as the commit store
    resolves it, a size that is never below 1 KB, stays at 1 KB up to 30
    commits, and is 50 bytes per commit rounded to the nearest KB; and
    a last commit date exactly when head names a commit of the table
    with a committer timestamp other than zero. *)
Theorem loadStats_shows (s : Storage) :
  let view := loadStats (getRepositoryStats s) in
  StatsView.totalCommits view = size (commitsOf s)
  ∧ StatsView.currentBranch view = getCurrentBranch s
  ∧ 1 ≤ StatsView.repoSizeKB view
  ∧ ((size (commitsOf s) ≤ 30)%nat → StatsView.repoSizeKB view = 1)
  ∧ ((11 ≤ size (commitsOf s))%nat →
     1024 * StatsView.repoSizeKB view
     ≤ 50 * N.of_nat (size (commitsOf s)) + 512
     ∧ 50 * N.of_nat (size (commitsOf s))
       < 1024 * StatsView.repoSizeKB view + 512)
  ∧ (∀ t, StatsView.lastCommitDate view = Some t
          ↔ t ≠ 0
            ∧ ∃ h commit,
                headOf s = Some h ∧ h ≠ ""
                ∧ commitsOf s !! h = Some commit
                ∧ Person.timestamp (Commit.committer commit) = t).
Proof.
  cbn zeta. unfold loadStats, getRepositoryStats. cbn.
  rewrite getCurrentBranch_nonempty.
  split; [reflexivity|]. split; [reflexivity|].
  assert (Hsize : ∀ n : nat,
    1 ≤ sizeKB n
    ∧ ((n ≤ 30)%nat → sizeKB n = 1)
    ∧ ((11 ≤ n)%nat →
       1024 * sizeKB n ≤ 50 * N.of_nat n + 512
       ∧ 50 * N.of_nat n < 1024 * sizeKB n + 512)).
  { intros n. unfold sizeKB. cbv zeta.
    pose proof (N.div_mod (N.of_nat n * 100 + 1024) 2048 ltac:(lia)) as Hd.
    pose proof (N.mod_lt (N.of_nat n * 100 + 1024) 2048 ltac:(lia)) as Hm.
    set (q := (N.of_nat n * 100 + 1024) / 2048) in *.
    set (m := (N.of_nat n * 100 + 1024) mod 2048) in *.
    clearbody q m.
    destruct (N.eqb_spec q 0);
      (split; [lia|]); (split; [intros; lia|]); intros; split; lia. }
  destruct (Hsize (size (commitsOf s))) as (H1 & H2 & H3).
  split; [exact H1|]. split; [exact H2|]. split; [exact H3|].
  intros t. unfold headOf.
  destruct (bookmark_git_repo s) as [repo|]; cbn;
    [|split; [discriminate | intros (_ & ? & ? & ? & _); discriminate]].
  destruct (Repo.head repo) as [h|];
    [|split; [discriminate | intros (_ & ? & ? & ? & _); discriminate]].
  destruct (String.eqb_spec h "") as [->|Hne].
  { split; [discriminate|]. intros (_ & ? & ? & [= <-] & ? & _).
    contradiction. }
  destruct (commitsOf s !! h) as [commit|] eqn:Hl.
  - destruct (N.eqb_spec (Person.timestamp (Commit.committer commit)) 0)
      as [H0|H0]; split.
    + discriminate.
    + intros (Ht & ? & ? & [= <-] & _ & Hl' & <-).
      rewrite Hl in Hl'. injection Hl' as <-. contradiction.
    + intros [= <-]. split; [exact H0|]. eauto 10.
    + intros (_ & ? & ? & [= <-] & _ & Hl' & <-).
      rewrite Hl in Hl'. now injection Hl' as <-.
  - split; [discriminate|].
    intros (_ & ? & ? & [= <-] & _ & Hl' & _). rewrite Hl in Hl'.
    discriminate.
Qed.

End PageProperties.

(** * The statements at concrete inputs *)

#[local] Existing Instance samplePlatform.


(** C1, as stated, fails: [importRepository] accepts a bundle without
    [commits] and the commits that the repository had are gone. *)
Lemma importRepository_accepts_bundle_without_commits :
  let tr := idleTracker (mkGit true committedStorage) in
  let r := importRepository 2000 (Some bundleWithoutCommits) tr in
  validateBackupData (Some bundleWithoutCommits) = false
  ∧ r.2 = Success
  ∧ hasCommits (storage (gitManager tr)) = true
  ∧ hasCommits (storage (gitManager r.1)) = false.
Proof. vm_compute. repeat split. Qed.

(** C2, as stated, fails: when [createCommit] throws, the buffer is
    kept. *)
Lemma failed_commit_buffer_not_cleared :
  createCommit (instant 1010) sampleTree
    (generateCommitMessage (pendingChanges strandedTracker)) "user"
    (storage (gitManager strandedTracker)) = None
  ∧ pendingChanges
      (processBufferedChanges (Some sampleTree) (instant 1010) 1010
         strandedTracker) ≠ [].
Proof. split; [reflexivity | discriminate]. Qed.

(** C5, as stated, fails: two calls within the same millisecond with the
    same snapshot and message return the same hash, and the second commit
    replaces the first in the table. *)
Lemma same_millisecond_same_hash :
  ∃ h s1 s2,
    createCommit (instant 1000) sampleTree
      "Manual bookmark snapshot" "manual" (storage freshGit) = Some (h, s1)
    ∧ createCommit (instant 1000) sampleTree
        "Manual bookmark snapshot" "manual" s1 = Some (h, s2)
    ∧ size (commitsOf s2) = 1%nat
    ∧ Commit.parent <$> commitsOf s1 !! h = Some None
    ∧ Commit.parent <$> commitsOf s2 !! h = Some (Some h).
Proof.
  eexists _, _, _.
  split; [vm_compute; reflexivity|].
  split; [vm_compute; reflexivity|].
  vm_compute. repeat split.
Qed.

(** C6, as stated, fails: a node with neither [url] nor [children] is
    counted as a folder; and a [null] among the nodes makes the walk
    throw. *)
Lemma bare_node_counts_as_folder :
  calculateStats (JArr [JObj None None []]) = Some (Stats.mk 0 1 1)
  ∧ calculateStats (JArr [JObj None None []]) ≠ Some (Stats.mk 0 0 0)
  ∧ calculateStats (JArr [JNull]) = None.
Proof. split; [reflexivity|]. split; [discriminate | reflexivity]. Qed.



Lemma invalid_bundle_rejected_witness :
  handleFileImport (Parsed (Some bundleWithoutCommits)) (mkOptions None None)
  = mkOptions (Some ("Invalid backup file format", "error")) None.
Proof.
  exact (proj1 (invalid_bundle_rejected_before_import 2000
                  (Some bundleWithoutCommits) (mkOptions None None)
                  (idleTracker (mkGit true committedStorage)) eq_refl)).
Defined.

Lemma failed_commit_keeps_buffer_witness :
  processBufferedChanges (Some sampleTree) (instant 1010) 1010
    strandedTracker = strandedTracker.
Proof.
  refine (proj1 (proj2 (failed_commit_keeps_buffer
                          (Some sampleTree) (instant 1010) 1010
                          strandedTracker _))).
  intros bookmarkTree H. injection H as <-. reflexivity.
Defined.


(** The two examples of the debounce: events at 0, 200 and 900 give one
    commit, made after the timeout at 1900 when the tree has arrived and
    the commit store has been read; events at 0 and 1500 give two. *)
Lemma debounce_examples :
  let run bs :=
    settle (runEvents (concat (map eventsOf bs)) (idleW freshGit true 1000 1 1 ∅)) in
  let log bs :=
    map (fun e => (Summary.message e, Person.timestamp (Summary.committer e)))
        (getCommitHistory 50 (storage (gitManager (tracker (run bs))))) in
  log oneBurst = [("Bulk bookmark changes: 2 created, 1 moved", 1907)]
  ∧ log twoBursts = [("Removed bookmark (ID: 7)", 2507);
                     ("Added bookmark: Rocq", 1007)].
Proof. vm_compute. split; reflexivity. Qed.


Lemma initialize_idempotent_witness :
  storage (initialize 5 (mkGit false emptyStorage))
  = mkStorage (Some (Repo.mk true 5 None {[ "main" := None ]}))
              (Some ∅) (Some "main") (Some defaultConfig) None
  ∧ storage (initialize 9 (mkGit false committedStorage)) = committedStorage.
Proof.
  split.
  - exact (proj1 (initialize_idempotent 5 6 emptyStorage) eq_refl).
  - refine (proj1 (proj2 (initialize_idempotent 9 6 emptyStorage))
                  (mkGit false committedStorage) _).
    vm_compute. eauto.
Defined.


Lemma createCommit_distinct_hashes_witness :
  commitHashOf (instant 1000) sampleTree "Manual bookmark snapshot"
  ≠ commitHashOf (instant 1001) sampleTree "Manual bookmark snapshot".
Proof.
  refine (proj1 (createCommit_distinct_hashes
                   (instant 1000) (instant 1001) sampleTree sampleTree
                   "Manual bookmark snapshot" "Manual bookmark snapshot"
                   "manual" "manual" (storage freshGit) (storage freshGit)
                   _ _
                   (default emptyStorage
                      (snd <$> createCommit (instant 1000) sampleTree
                                 "Manual bookmark snapshot" "manual" (storage freshGit)))
                   (default emptyStorage
                      (snd <$> createCommit (instant 1001) sampleTree
                                 "Manual bookmark snapshot" "manual" (storage freshGit)))
                   _ _ _)).
  - vm_compute. discriminate.
  - vm_compute. reflexivity.
  - vm_compute. reflexivity.
Defined.

Lemma calculateStats_counts_witness :
  calculateStats (JStr "not a tree") = Some (Stats.mk 0 0 0)
  ∧ calculateStats sampleTree = Some (Stats.mk 2 3 5).
Proof.
  split.
  - exact (proj1 (calculateStats_counts (JStr "not a tree")) eq_refl).
  - refine (proj1 (proj2 (calculateStats_counts sampleTree)) _).
    vm_compute. repeat constructor.
Defined.



Lemma committedStorage_reachable : Reachable committedStorage.
Proof.
  refine (reach_createCommit (instant 1000) sampleTree
            "Initial bookmark snapshot" "system" (storage freshGit)
            (commitHashOf (instant 1000) sampleTree
               "Initial bookmark snapshot")
            committedStorage (reach_initialize 5 emptyStorage) _).
  vm_compute. reflexivity.
Defined.

Lemma export_import_roundtrip_witness :
  let tr := idleTracker (mkGit true committedStorage) in
  let r := importRepository 3000
             (Some (exportRepository 2000 committedStorage)) tr in
  r.2 = Success
  ∧ getRepositoryStats (storage (gitManager r.1))
    = getRepositoryStats committedStorage.
Proof.
  destruct (export_import_roundtrip 2000 3000
              (idleTracker (mkGit true committedStorage))
              committedStorage_reachable) as (H1 & H2 & _).
  split; [exact H1 | exact H2].
Defined.

Lemma storeChangeHistory_invariant_witness :
  logInvariant
    (take 100 (HistoryEntry.mk 20 [Change.mk 15 (Moved "7")]
                 (generateCommitMessage [Change.mk 15 (Moved "7")])
               :: default [] (changeHistory loggedStorage))).
Proof.
  refine (proj1 (proj2 (proj2 (storeChangeHistory_invariant 20
                   [Change.mk 15 (Moved "7")] loggedStorage))) _ _).
  - split; [vm_compute; lia | repeat constructor].
  - repeat constructor. vm_compute. discriminate.
Defined.

(** * The further properties at concrete inputs *)

#[local] Existing Instance sampleLocale.





Lemma calculateDiff_delta_witness :
  calculateDiff sampleTree sampleTree = Some zeroDiff.
Proof.
  refine (proj2 (proj2 (calculateDiff_delta sampleTree sampleTree)) _).
  vm_compute. eauto.
Defined.

Lemma getCommitData_createCommit_witness :
  getCommitData (commitHashOf (instant 1000) sampleTree
                              "Initial bookmark snapshot") committedStorage
  = sampleTree.
Proof.
  refine (proj1 (getCommitData_createCommit (instant 1000) sampleTree
                   "Initial bookmark snapshot" "system" (storage freshGit)
                   _ committedStorage _)).
  vm_compute. reflexivity.
Defined.

Lemma getCommitDiff_null_witness :
  getCommitDiff "0" "1" committedStorage = None.
Proof.
  refine (proj1 (proj2 (getCommitDiff_null "0" "1" committedStorage)) _).
  left. vm_compute. reflexivity.
Defined.

Lemma getCommitDiff_of_commits_witness :
  getCommitDiff
    (commitHashOf (instant 1000) sampleTree "Initial bookmark snapshot")
    (commitHashOf (instant 2500) secondSnapshot "Manual bookmark snapshot")
    twiceCommittedStorage
  = calculateDiff sampleTree secondSnapshot
  ∧ is_Some (calculateDiff sampleTree secondSnapshot).
Proof.
  refine (getCommitDiff_of_commits (instant 1000) (instant 2500)
            sampleTree secondSnapshot
            "Initial bookmark snapshot" "Manual bookmark snapshot"
            "system" "manual" (storage freshGit) committedStorage
            twiceCommittedStorage _ _ _ _ _ _ _);
    vm_compute; (reflexivity || discriminate).
Defined.



Lemma recommittedStorage_createCommit :
  createCommit (instant 2700) secondSnapshot "Manual bookmark snapshot"
               "manual" resetStorage
  = Some (commitHashOf (instant 2700) secondSnapshot
                       "Manual bookmark snapshot",
          recommittedStorage).
Proof. vm_compute. reflexivity. Qed.

Lemma first_commit_after_reset_witness :
  ∃ commit e,
    commitsOf recommittedStorage
    = {[ commitHashOf (instant 2700) secondSnapshot
                      "Manual bookmark snapshot" := commit ]}
    ∧ Commit.parent commit = None
    ∧ getCommitHistory 50 recommittedStorage = [e]
    ∧ Summary.hash e
      = commitHashOf (instant 2700) secondSnapshot "Manual bookmark snapshot"
    ∧ Summary.message e = "Manual bookmark snapshot".
Proof.
  refine (first_commit_after_reset 2600 (mkGit true twiceCommittedStorage)
            (instant 2700) secondSnapshot "Manual bookmark snapshot"
            "manual" _ recommittedStorage 49 _
            recommittedStorage_createCommit).
  vm_compute. discriminate.
Defined.

Lemma import_export_roundtrip_witness :
  let bundle := exportRepository 2000 committedStorage in
  let r := importRepository 3000 (Some bundle)
             (idleTracker (mkGit true twiceCommittedStorage)) in
  r.2 = Success
  ∧ Bundle.commits (exportRepository 4000 (storage (gitManager r.1)))
    = Bundle.commits bundle.
Proof.
  destruct (import_export_roundtrip 3000 4000
              (exportRepository 2000 committedStorage)
              (idleTracker (mkGit true twiceCommittedStorage))
              ltac:(vm_compute; reflexivity))
    as (H1 & _ & H2 & _).
  split; [exact H1 | exact H2].
Defined.

Lemma trackerInitialize_first_run_witness :
  let tr' := trackerInitialize 5 (Some sampleTree) (instant 1000) newTracker in
  isInitialized tr' = true
  ∧ ∃ commit,
      commitsOf (storage (gitManager tr')) = {[ Commit.hash commit := commit ]}
      ∧ headOf (storage (gitManager tr')) = Some (Commit.hash commit)
      ∧ Commit.message commit = "Initial bookmark snapshot"
      ∧ Commit.parent commit = None
      ∧ Commit.data commit = sampleTree
      ∧ getCommitHistory 50 (storage (gitManager tr')) = [summaryOf commit].
Proof.
  refine (trackerInitialize_first_run 5 sampleTree (instant 1000) newTracker
            49 _ _ _ _ _);
    try reflexivity.
  - vm_compute. eauto.
  - vm_compute. discriminate.
Defined.

Lemma trackerInitialize_restart_witness :
  storage (gitManager (trackerInitialize 9000 (Some secondSnapshot)
                         (instant 9000) restartedTracker))
  = committedStorage.
Proof.
  refine (proj1 (trackerInitialize_restart 9000 (Some secondSnapshot)
                   (instant 9000) restartedTracker _ _ _)).
  - reflexivity.
  - vm_compute. eauto.
  - vm_compute. reflexivity.
Defined.

Lemma trackerInitialize_once_witness :
  let tr' := trackerInitialize 5 None (instant 1000) newTracker in
  isInitialized tr' = true
  ∧ is_Some (bookmark_git_repo (storage (gitManager tr')))
  ∧ trackerInitialize 6 (Some sampleTree) (instant 2000) tr' = tr'.
Proof.
  destruct (trackerInitialize_once 5 6 None (Some sampleTree) (instant 1000)
              (instant 2000) newTracker)
    as (H1 & Hrepo & _ & _ & H2 & _).
  split; [exact H1|]. split; [|exact H2].
  apply Hrepo; [reflexivity | discriminate].
Defined.

Lemma createManualSnapshot_created_witness :
  (createManualSnapshot (Some secondSnapshot) (instant 2500) None
     (idleTracker (mkGit true committedStorage))).2 = SnapshotCreated.
Proof.
  refine (proj2 (proj1 (createManualSnapshot_created (Some secondSnapshot)
                          (instant 2500) None
                          (idleTracker (mkGit true committedStorage)))) _).
  split; [vm_compute; eauto|].
  exists secondSnapshot. split; [reflexivity | vm_compute; eauto].
Defined.

Lemma createManualSnapshot_failed_witness :
  (createManualSnapshot (Some sampleTree) (instant 1010) None
     strandedTracker).1 = strandedTracker.
Proof.
  refine (proj1 (createManualSnapshot_failed (Some sampleTree) (instant 1010)
                   None strandedTracker CommitThrew _)).
  vm_compute. reflexivity.
Defined.

Lemma restoreFromCommit_snapshot_witness :
  restoreFromCommit "0" (idleTracker (mkGit true committedStorage))
  = RestoreFailed "Commit data not found".
Proof.
  refine (proj1 (proj2 (proj2 (restoreFromCommit_snapshot "0"
                   (idleTracker (mkGit true committedStorage))))) _).
  vm_compute. reflexivity.
Defined.


Lemma calculateBookmarkStats_agrees_witness :
  ∃ stats,
    calculateStats sampleTree = Some stats
    ∧ calculateBookmarkStats sampleTree
      = Some (BookmarkStats.mk (Stats.totalBookmarks stats)
                               (Stats.totalFolders stats))
    ∧ getRepoStats (Some sampleTree)
      = BookmarkStats.mk (Stats.totalBookmarks stats)
                         (Stats.totalFolders stats).
Proof.
  refine (calculateBookmarkStats_agrees sampleTree _).
  vm_compute. reflexivity.
Defined.

Lemma calculateBookmarkStats_at_most_witness :
  ∃ shown,
    calculateBookmarkStats bareTree = Some shown
    ∧ BookmarkStats.totalBookmarks shown ≤ 0
    ∧ BookmarkStats.totalFolders shown ≤ 1.
Proof.
  refine (calculateBookmarkStats_at_most bareTree (Stats.mk 0 1 1) _).
  vm_compute. reflexivity.
Defined.

Lemma filterCommits_shown_witness :
  renderCommitHistory (filterCommits "Deleted" samplePopup)
  = commitHistory samplePopup.
Proof.
  refine (proj1 (proj2 (proj2 (filterCommits_shown "Deleted" samplePopup))) _).
  vm_compute. reflexivity.
Defined.

Lemma loadData_history_witness :
  commitHistory (loadData sampleSurroundings (Some sampleTree)
                   (idleTracker (mkGit true twiceCommittedStorage)) newPopup)
  = getCommitHistory 50 twiceCommittedStorage.
Proof.
  refine (proj1 (proj1 (loadData_history sampleSurroundings (Some sampleTree)
                   (idleTracker (mkGit true twiceCommittedStorage)) newPopup)
                   _)).
  reflexivity.
Defined.

Lemma formatDuration_units_witness :
  formatDuration 90000000 = Days 1
  ∧ (1 ≤ 1)%Z ∧ (1 * 86400000 ≤ 90000000 < (1 + 1) * 86400000)%Z.
Proof.
  split; [reflexivity|].
  exact (formatDuration_units 90000000 ltac:(lia)).
Defined.

Lemma settings_roundtrip_witness :
  loadSettings defaultSettings
    (saveSettingsToStorage (onSettingChange sampleForm)
       (mkLocal (storage freshGit) None))
  = Settings.mk "Ada" "ada@example.org" false 1.
Proof.
  refine (proj1 (proj2 (proj2 (proj2 (proj2
            (settings_roundtrip sampleForm defaultSettings defaultSettings
               (mkLocal (storage freshGit) None)))))) _ _);
    discriminate.
Defined.

Lemma signedStorage_createCommit :
  createCommit (instant 1000) sampleTree "Initial bookmark snapshot" "system"
               savedStorage
  = Some (commitHashOf (instant 1000) sampleTree "Initial bookmark snapshot",
          signedStorage).
Proof. vm_compute. reflexivity. Qed.

Lemma saved_author_in_commits_witness :
  ∃ commit : Commit.t,
    Person.name (Commit.author commit) = "Ada"
    ∧ Person.email (Commit.author commit) = defaultEmail.
Proof.
  destruct (saved_author_in_commits sampleSettings
              (mkLocal (storage freshGit) None) (instant 1000) sampleTree
              "Initial bookmark snapshot" "system" _ signedStorage
              signedStorage_createCommit)
    as (commit & _ & Hname & Hemail & _).
  exists commit. split; [exact Hname | exact Hemail].
Defined.

Lemma executeAction_reset_witness :
  toast (options (executeAction 5000 resetArmed))
  = Some ("Repository reset successfully", "success")
  ∧ hasCommits (storage (gitManager (background
                                       (executeAction 5000 resetArmed))))
    = false.
Proof.
  destruct (executeAction_reset 5000 resetArmed 50 None eq_refl)
    as (H1 & _ & H2 & _).
  split; [exact H1 | exact H2].
Defined.

Lemma loadStats_shows_witness :
  StatsView.repoSizeKB (loadStats (getRepositoryStats twiceCommittedStorage))
  = 1.
Proof.
  refine (proj1 (proj2 (proj2 (proj2
            (loadStats_shows twiceCommittedStorage)))) _).
  vm_compute. lia.
Defined.
